(** * Intelly_Jelly: the library browser ([backend/library_browser.py])

    A shallow embedding of [LibraryBrowser]: the catalog scan
    ([_get_all_files]), the paginated query ([get_files_paginated]), the
    subtitle association ([find_related_subtitle]), the paired rename
    ([rename_file]) and the file-info lookup ([get_file_info]), together
    with the parts of [os.path] they call.

    Modelling choices.
    - A Python [str] is a [string] of characters with code points below
      256 (Latin-1); [str.lower] is Python's lowering of those characters,
      which stays in that range, and strings compare by code point.
    - A Python [int] is a [Z]; [len] and list indices are [Z] as well, so
      that negative slice bounds behave as in Python.
    - [st_mtime] is a finite float; only its order is ever observed (by the
      sort), so it is the rational [Q] the float denotes.
    - [math.ceil(a / b)], for the length [a] of a list, is the ceiling of
      the quotient rounded to a double: the exact ceiling, except that a
      positive quotient of at most [2^-1075] is rounded to [0.0]
      ([ceil_div]).  The division of doubles itself is [binary64], and
      [ceil_div_binary64] proves the two equal for a length below [2^53].
    - The operating system is an interface ([OS]): [os.stat], [os.walk],
      [os.rename] and [os.getcwd] over an abstract file-system state.  A
      concrete tree-shaped POSIX file system instantiates it.
    - An exception is a value of [exn]; a computation that may raise
      returns [py A].  [logger] calls are not modelled. *)

From Stdlib Require Import ZArith QArith Lia Ascii String List Permutation Sorted.
From Stdlib Require Import DecimalString.
From stdpp Require Import base gmap strings.

Import ListNotations.
Local Open Scope string_scope.
Local Open Scope Z_scope.

(** ** Python strings *)

Module Str.

Definition len (s : string) : Z := Z.of_nat (String.length s).

(** [s[:n]] and [s[n:]] for a non-negative [n]. *)
Fixpoint take (n : nat) (s : string) : string :=
  match n, s with
  | O, _ => EmptyString
  | S _, EmptyString => EmptyString
  | S n', String a s' => String a (take n' s')
  end.

Fixpoint drop (n : nat) (s : string) : string :=
  match n, s with
  | O, _ => s
  | S _, EmptyString => EmptyString
  | S n', String _ s' => drop n' s'
  end.

(** [s.rfind(c)] for a one-character [c]: the index of the last
    occurrence, [-1] when there is none. *)
Fixpoint rfind_from (c : ascii) (s : string) (i last : Z) : Z :=
  match s with
  | EmptyString => last
  | String a s' => rfind_from c s' (i + 1) (if Ascii.eqb a c then i else last)
  end.

Definition rfind (c : ascii) (s : string) : Z := rfind_from c s 0 (-1).

Definition startswith (s pre : string) : bool := String.prefix pre s.

Fixpoint last_char (s : string) : option ascii :=
  match s with
  | EmptyString => None
  | String a EmptyString => Some a
  | String _ s' => last_char s'
  end.

Definition endswith_char (s : string) (c : ascii) : bool :=
  match last_char s with
  | Some a => Ascii.eqb a c
  | None => false
  end.

(** [s.rstrip(c)]. *)
Fixpoint rstrip (c : ascii) (s : string) : string :=
  match s with
  | EmptyString => EmptyString
  | String a s' =>
      match rstrip c s' with
      | EmptyString => if Ascii.eqb a c then EmptyString else String a EmptyString
      | r => String a r
      end
  end.

(** [s == c * len(s)]. *)
Fixpoint all_char (c : ascii) (s : string) : bool :=
  match s with
  | EmptyString => true
  | String a s' => Ascii.eqb a c && all_char c s'
  end.

(** [c.lower()] for a character below 256: the letters [A-Z] and the
    accented capitals U+00C0 to U+00DE (the sign U+00D7 apart) are moved 32
    places up, every other character is left as it is. *)
Definition lower_char (a : ascii) : ascii :=
  let n := nat_of_ascii a in
  if ((65 <=? n)%nat && (n <=? 90)%nat)
     || ((192 <=? n)%nat && (n <=? 214)%nat)
     || ((216 <=? n)%nat && (n <=? 222)%nat)
  then ascii_of_nat (n + 32) else a.

Fixpoint lower (s : string) : string :=
  match s with
  | EmptyString => EmptyString
  | String a s' => String (lower_char a) (lower s')
  end.

(** [sub in s]. *)
Fixpoint contains (sub s : string) : bool :=
  String.prefix sub s ||
  match s with
  | EmptyString => false
  | String _ s' => contains sub s'
  end.

(** [s.split(c)]. *)
Fixpoint split (c : ascii) (s : string) : list string :=
  match s with
  | EmptyString => [EmptyString]
  | String a s' =>
      if Ascii.eqb a c then EmptyString :: split c s'
      else match split c s' with
           | [] => [String a EmptyString]
           | w :: ws => String a w :: ws
           end
  end.

(** [str(n)] for a natural number. *)
Definition of_nat (n : nat) : string := NilEmpty.string_of_uint (Nat.to_uint n).

End Str.

(** ** [os.path] on POSIX ([posixpath], [genericpath]) *)

Module posixpath.

Definition sep : ascii := "/"%char.
Definition extsep : ascii := "."%char.

(** [join(a, b)]. *)
Definition join (a b : string) : string :=
  if Str.startswith b "/" then b
  else if String.eqb a "" || Str.endswith_char a sep then a ++ b
  else a ++ "/" ++ b.

Definition basename (p : string) : string :=
  let i := Str.rfind sep p + 1 in
  Str.drop (Z.to_nat i) p.

Definition dirname (p : string) : string :=
  let i := Str.rfind sep p + 1 in
  let head := Str.take (Z.to_nat i) p in
  if negb (String.eqb head "") && negb (Str.all_char sep head)
  then Str.rstrip sep head
  else head.

(** The [while] loop of [_splitext]: is there a character other than
    the dot in [p[filenameIndex:dotIndex]]? *)
Fixpoint has_non_dot (s : string) : bool :=
  match s with
  | EmptyString => false
  | String a s' => if Ascii.eqb a extsep then has_non_dot s' else true
  end.

Definition splitext (p : string) : string * string :=
  let sepIndex := Str.rfind sep p in
  let dotIndex := Str.rfind extsep p in
  if (dotIndex >? sepIndex)
     && has_non_dot (Str.take (Z.to_nat (dotIndex - (sepIndex + 1)))
                              (Str.drop (Z.to_nat (sepIndex + 1)) p))
  then (Str.take (Z.to_nat dotIndex) p, Str.drop (Z.to_nat dotIndex) p)
  else (p, "").

Definition isabs (p : string) : bool := Str.startswith p "/".

(** The loop of [normpath] over the components; [new_comps] is kept
    reversed (its head is the last component appended). *)
Fixpoint norm_comps (initial_slashes : bool) (comps new_comps : list string)
  : list string :=
  match comps with
  | [] => rev new_comps
  | comp :: rest =>
      if String.eqb comp "" || String.eqb comp "." then
        norm_comps initial_slashes rest new_comps
      else if negb (String.eqb comp "..")
              || (negb initial_slashes && match new_comps with [] => true | _ => false end)
              || match new_comps with c :: _ => String.eqb c ".." | [] => false end
      then norm_comps initial_slashes rest (comp :: new_comps)
      else norm_comps initial_slashes rest (tl new_comps)
  end.

Definition normpath (path : string) : string :=
  if String.eqb path "" then "."
  else
    let initial_slashes : nat :=
      if Str.startswith path "/" then
        if Str.startswith path "//" && negb (Str.startswith path "///")
        then 2%nat else 1%nat
      else 0%nat in
    let comps := norm_comps (negb (Nat.eqb initial_slashes 0))
                            (Str.split sep path) [] in
    let path := String.concat "/" comps in
    let path :=
      match initial_slashes with
      | O => path
      | 1%nat => "/" ++ path
      | _ => "//" ++ path
      end in
    if String.eqb path "" then "." else path.

Definition abspath (cwd path : string) : string :=
  if isabs path then normpath path else normpath (join cwd path).

(** [len(commonprefix([a, b]))] for two lists of components. *)
Fixpoint common_len (a b : list string) : nat :=
  match a, b with
  | x :: a', y :: b' => if String.eqb x y then S (common_len a' b') else O
  | _, _ => O
  end.

Definition nonempty (x : string) : bool := negb (String.eqb x "").

(** [join] applied to all the components of a non-empty list. *)
Definition join_all (l : list string) : string :=
  match l with
  | [] => ""
  | a :: p => fold_left join p a
  end.

(** [relpath(path, start)], with the current directory [cwd];
    [None] stands for its [ValueError("no path specified")]. *)
Definition relpath (cwd path start : string) : option string :=
  if String.eqb path "" then None
  else
    let start_list := List.filter nonempty (Str.split sep (abspath cwd start)) in
    let path_list := List.filter nonempty (Str.split sep (abspath cwd path)) in
    let i := common_len start_list path_list in
    let rel_list := (repeat ".." (List.length start_list - i)%nat
                     ++ skipn i path_list)%list in
    match rel_list with
    | [] => Some "."
    | _ => Some (join_all rel_list)
    end.

End posixpath.

(** ** Exceptions and computations *)

(** The exceptions the modelled code can meet; each carries [str(e)]. *)
Inductive exn :=
| OSError (msg : string)
| ValueError (msg : string)
| ZeroDivisionError (msg : string)
| OverflowError (msg : string).

Definition str_exn (e : exn) : string :=
  match e with
  | OSError m | ValueError m | ZeroDivisionError m | OverflowError m => m
  end.

(** The result of a Python call: a value, or an exception that leaves the
    function. *)
Inductive py (A : Type) :=
| Return (a : A)
| Raise (e : exn).
Arguments Return {A} a.
Arguments Raise {A} e.

#[global] Instance py_ret : MRet py := @Return.
#[global] Instance py_bind : MBind py := λ A B f m,
  match m with
  | Return a => f a
  | Raise e => Raise e
  end.

(** A computation over a mutable store [S].  What it wrote before an
    exception stays written: Python does not roll back. *)
Definition M (S A : Type) : Type := S → py A * S.

Section monad.
Context {S : Type}.

Definition ret {A} (a : A) : M S A := λ s, (Return a, s).

Definition bind {A B} (m : M S A) (k : A → M S B) : M S B := λ s,
  match m s with
  | (Return a, s') => k a s'
  | (Raise e, s') => (Raise e, s')
  end.

Definition raise {A} (e : exn) : M S A := λ s, (Raise e, s).

(** [lift r]: a call that reads no store. *)
Definition lift {A} (r : py A) : M S A := λ s, (r, s).

Definition get : M S S := λ s, (Return s, s).
Definition modify (f : S → S) : M S unit := λ s, (Return tt, f s).

(** [try: m  except Exception as e: h e]. *)
Definition try_except {A} (m : M S A) (h : exn → M S A) : M S A := λ s,
  match m s with
  | (Raise e, s') => h e s'
  | r => r
  end.

(** [for x in l: body x]. *)
Fixpoint for_each {X} (l : list X) (body : X → M S unit) : M S unit :=
  match l with
  | [] => ret tt
  | x :: l' => bind (body x) (λ _, for_each l' body)
  end.
End monad.

#[global] Instance M_ret {S} : MRet (M S) := @ret S.
#[global] Instance M_bind {S} : MBind (M S) := λ A B k m, bind m k.

(** ** The operating system *)

Record stat_result := { st_size : Z; st_mtime : Q }.

(** What the browser asks of the operating system, over a state [FS].
    [os.walk] yields [(root, dirs, filenames)] in an order of the file
    system's choosing and swallows its own errors; [os.stat] and
    [os.rename] raise [OSError]. *)
Class OS (FS : Type) := {
  os_stat : FS → string → py stat_result;
  os_walk : FS → string → list (string * list string * list string);
  os_rename : FS → string → string → py FS;
  os_getcwd : FS → string;
  (** [os.stat('')] raises [FileNotFoundError]. *)
  os_stat_empty : ∀ fs, ∃ e, os_stat fs "" = Raise e
}.

Module os_path.
Section os_path.
Context {FS : Type} `{OS FS}.

(** [genericpath.exists]. *)
Definition exists_ (fs : FS) (path : string) : bool :=
  match os_stat fs path with
  | Return _ => true
  | Raise _ => false
  end.

Definition getsize (fs : FS) (path : string) : py Z :=
  st ← os_stat fs path; mret (st_size st).

Definition getmtime (fs : FS) (path : string) : py Q :=
  st ← os_stat fs path; mret (st_mtime st).

Definition relpath (fs : FS) (path start : string) : py string :=
  match posixpath.relpath (os_getcwd fs) path start with
  | Some r => Return r
  | None => Raise (ValueError "no path specified")
  end.
End os_path.
End os_path.

(** ** Python lists *)

Section pylist.
Context {A : Type}.

Definition len (l : list A) : Z := Z.of_nat (length l).

(** The bound of a slice, adjusted as [PySlice_AdjustIndices] does. *)
Definition slice_index (n i : Z) : Z :=
  if i <? 0 then Z.max (i + n) 0 else Z.min i n.

(** [l[start:stop]]. *)
Definition slice (l : list A) (start stop : Z) : list A :=
  let lo := slice_index (len l) start in
  let hi := slice_index (len l) stop in
  firstn (Z.to_nat (hi - lo)) (skipn (Z.to_nat lo) l).

(** [l.sort(key=key, reverse=reverse)].  The sort is stable and compares
    keys with [<] alone; all stable sorts agree, so insertion sort
    stands for it.  With [reverse] the list is reversed, sorted and
    reversed again, which is how CPython keeps equal keys in their
    original order. *)
Context {K : Type} (lt : K → K → bool) (key : A → K).

Fixpoint insert_sorted (x : A) (l : list A) : list A :=
  match l with
  | [] => [x]
  | y :: l' => if lt (key y) (key x) then y :: insert_sorted x l' else x :: l
  end.

Fixpoint stable_sort (l : list A) : list A :=
  match l with
  | [] => []
  | x :: l' => insert_sorted x (stable_sort l')
  end.

Definition list_sort (reverse : bool) (l : list A) : list A :=
  if reverse then rev (stable_sort (rev l)) else stable_sort l.
End pylist.

Definition Q_ltb (x y : Q) : bool := negb (Qle_bool y x).

(** The strict order of an integer key. *)
Definition key_lt {A : Type} (key : A → Z) (x y : A) : Prop := key x < key y.

(** The quotient [a / b] of two integers is rounded to the nearest
    double; [underflows a b] says that it is positive and at most
    [2^-1075], half the smallest positive double, so that it is rounded to
    [0.0]. *)
Definition underflows (a b : Z) : bool :=
  (0 <? b) && (a * 2 ^ 1075 <=? b).

(** [math.ceil(a / b)] for the length [a] of a list.  [a / b] raises for
    [b = 0]; otherwise the quotient is rounded to a double and [math.ceil]
    takes the ceiling of that double.  For [0 <= a < 2^53] the rounding
    changes the ceiling in one case only: the quotient that underflows
    gives [0], not [1]; in every other case the result is the exact
    ceiling, [- floor(- a / b)].  [ceil_div_binary64] proves this against
    the division of doubles ([binary64]); the dividend is the number of
    records of a catalog held in memory, which is below [2^53]. *)
Definition ceil_div (a b : Z) : py Z :=
  if b =? 0 then Raise (ZeroDivisionError "division by zero")
  else if underflows a b then Return 0
  else Return (- ((- a) / b)).

(** ** Division of two integers as doubles

    What [a / b] computes for two Python integers: the quotient rounded
    to the nearest double, ties to even, and [OverflowError] when that is
    beyond the largest double.  [ceil_div] is compared with it in
    [ceil_div_binary64]. *)
Module binary64.

(** A finite double, [mantissa * 2 ^ exponent] (the sign of a zero is
    not kept: [math.ceil] does not see it). *)
Record t := { mantissa : Z; exponent : Z }.

(** [n / d] rounded to the nearest integer, ties to even, for [0 <= n]
    and [0 < d]. *)
Definition round_half_even (n d : Z) : Z :=
  let q := n / d in
  let r := n mod d in
  if 2 * r <? d then q
  else if d <? 2 * r then q + 1
  else if Z.even q then q else q + 1.

(** [2 ^ l <= a / b], for positive [a] and [b]. *)
Definition reaches (l a b : Z) : bool :=
  if 0 <=? l then b * 2 ^ l <=? a else b <=? a * 2 ^ (- l).

(** The integer part of the binary logarithm of [a / b]. *)
Definition ilog2 (a b : Z) : Z :=
  let d := Z.log2 a - Z.log2 b in
  if reaches d a b then d else d - 1.

(** [a / (b * 2 ^ e)] rounded to an integer. *)
Definition scaled (a b e : Z) : Z :=
  if 0 <=? e then round_half_even a (b * 2 ^ e)
  else round_half_even (a * 2 ^ (- e)) b.

(** [a / b]: 53 bits of mantissa, the exponent not below that of the
    subnormal numbers. *)
Definition true_divide (a b : Z) : py t :=
  if b =? 0 then Raise (ZeroDivisionError "division by zero")
  else if a =? 0 then Return {| mantissa := 0; exponent := 0 |}
  else
    let e := Z.max (ilog2 (Z.abs a) (Z.abs b) - 52) (-1074) in
    let m := scaled (Z.abs a) (Z.abs b) e in
    if (0 <=? e) && (2 ^ 1024 <=? m * 2 ^ e) then
      Raise (OverflowError "integer division result too large for a float")
    else Return {| mantissa := Z.sgn a * Z.sgn b * m; exponent := e |}.

(** [math.ceil(x)] *)
Definition ceil (x : t) : Z :=
  if 0 <=? exponent x then mantissa x * 2 ^ exponent x
  else - ((- mantissa x) / 2 ^ (- exponent x)).

(** [math.ceil(a / b)] *)
Definition ceil_of_quotient (a b : Z) : py Z :=
  match true_divide a b with
  | Return x => Return (ceil x)
  | Raise e => Raise e
  end.
End binary64.

(** ** The browser *)

Record FileRecord := {
  filename : string;
  full_path : string;
  relative_path : string;
  directory : string;
  extension : string;
  size : Z;
  modified : Q;
  is_video : bool;
  is_subtitle : bool
}.

Module pagination.
Record t := {
  current_page : Z;
  per_page : Z;
  total_files : Z;
  total_pages : Z;
  has_previous : bool;
  has_next : bool
}.
End pagination.

Module stats.
Record t := {
  total_files : Z;
  video_files : Z;
  subtitle_files : Z;
  total_size : Z
}.
End stats.

Record PageResult := {
  files : list FileRecord;
  pagination : pagination.t;
  stats : stats.t
}.

Record Renamed := { old : string; new : string; type : string }.

Record RenameOutcome := {
  success : bool;
  message : string;
  renamed_files : list Renamed
}.

(** The two keys [get_file_info] adds for a video. *)
Record SubtitleInfo := { has_subtitle : bool; subtitle_path : option string }.

Record FileInfo := { info : FileRecord; video_info : option SubtitleInfo }.

Module LibraryBrowser.

Definition video_extensions : gset string :=
  list_to_set [".mp4"; ".mkv"; ".avi"; ".mov"; ".wmv"; ".flv"; ".webm";
               ".m4v"; ".mpg"; ".mpeg"].

Definition subtitle_extensions : gset string :=
  list_to_set [".srt"; ".sub"; ".vtt"; ".ass"; ".ssa"].

Definition supported_extensions : gset string :=
  video_extensions ∪ subtitle_extensions
  ∪ list_to_set [".mp3"; ".flac"; ".wav"; ".aac"; ".m4a"; ".pdf"; ".epub"; ".mobi"].

(** The object.  A Python [set] of strings iterates in hash order, which
    changes from one interpreter run to the next; [subtitle_iter] is the
    order in which [for ext in self.subtitle_extensions] yields in this
    run. *)
Record t := {
  library_path : string;
  subtitle_iter : list string
}.

(** The objects [__init__] can build. *)
Definition well_formed (self : t) : Prop :=
  Permutation (subtitle_iter self) (elements subtitle_extensions).

Definition update_library_path (self : t) (new_path : string) : t :=
  {| library_path := new_path; subtitle_iter := subtitle_iter self |}.

Section methods.
Context {FS : Type} `{OS FS}.

(** *** The catalog scan *)

(** The body of the inner loop of [_get_all_files]; the store is the
    local [files]. *)
Definition scan_file (self : t) (fs : FS) (root filename : string)
  : M (list FileRecord) unit :=
  let file_path := posixpath.join root filename in
  let file_ext := Str.lower (snd (posixpath.splitext filename)) in
  if bool_decide (file_ext ∈ supported_extensions) then
    relative_path ← lift (os_path.relpath fs file_path (library_path self));
    file_size ← lift (os_path.getsize fs file_path);
    modified_time ← lift (os_path.getmtime fs file_path);
    modify (λ files, files ++ [
      {| filename := filename;
         full_path := file_path;
         relative_path := relative_path;
         directory := posixpath.dirname relative_path;
         extension := file_ext;
         size := file_size;
         modified := modified_time;
         is_video := bool_decide (file_ext ∈ video_extensions);
         is_subtitle := bool_decide (file_ext ∈ subtitle_extensions) |} ])%list
  else mret tt.

Definition _get_all_files (self : t) (fs : FS) : list FileRecord :=
  if negb (os_path.exists_ fs (library_path self)) then []
  else
    snd (try_except
           (for_each (os_walk fs (library_path self))
              (λ '(root, dirs, filenames),
                 for_each filenames (scan_file self fs root)))
           (λ e, mret tt)
           []).

(** *** The paginated query *)

Definition matches (search_lower : string) (f : FileRecord) : bool :=
  Str.contains search_lower (Str.lower (filename f))
  || Str.contains search_lower (Str.lower (relative_path f)).

(** [if search: all_files = [f for f in all_files if ...]]: [None] and
    the empty string are both false. *)
Definition filter_search (search : option string) (all_files : list FileRecord)
  : list FileRecord :=
  match search with
  | Some s =>
      if String.eqb s "" then all_files
      else List.filter (matches (Str.lower s)) all_files
  | None => all_files
  end.

Definition sort_files (sort_by sort_order : string) (all_files : list FileRecord)
  : list FileRecord :=
  let reverse := String.eqb sort_order "desc" in
  if String.eqb sort_by "filename" then
    list_sort String.ltb (λ x, Str.lower (filename x)) reverse all_files
  else if String.eqb sort_by "size" then
    list_sort Z.ltb size reverse all_files
  else
    list_sort Q_ltb modified reverse all_files.

Definition sum_sizes (l : list FileRecord) : Z :=
  fold_left (λ acc f, acc + size f) l 0.

(** From "Calculate pagination" on, over the filtered and sorted
    [all_files]. *)
Definition paginate (all_files : list FileRecord) (page per_page : Z)
  : py PageResult :=
  let total_files := len all_files in
  total_pages ← (if total_files >? 0 then ceil_div total_files per_page
                 else Return 1);
  let page := Z.max 1 (Z.min page total_pages) in
  let start_idx := (page - 1) * per_page in
  let end_idx := start_idx + per_page in
  let page_files := slice all_files start_idx end_idx in
  mret {|
    files := page_files;
    pagination := {|
      pagination.current_page := page;
      pagination.per_page := per_page;
      pagination.total_files := total_files;
      pagination.total_pages := total_pages;
      pagination.has_previous := page >? 1;
      pagination.has_next := page <? total_pages |};
    stats := {|
      stats.total_files := total_files;
      stats.video_files := len (List.filter is_video all_files);
      stats.subtitle_files := len (List.filter is_subtitle all_files);
      stats.total_size := sum_sizes all_files |} |}.

(** The filtered set of a query: the scan, filtered by [search]. *)
Definition filtered (self : t) (fs : FS) (search : option string)
  : list FileRecord :=
  filter_search search (_get_all_files self fs).

Definition get_files_paginated (self : t) (fs : FS) (page per_page : Z)
    (search : option string) (sort_by sort_order : string) : py PageResult :=
  let all_files := _get_all_files self fs in
  let all_files := filter_search search all_files in
  let all_files := sort_files sort_by sort_order all_files in
  paginate all_files page per_page.

(** *** Subtitle association *)

Fixpoint first_existing (fs : FS) (video_dir video_base : string)
    (exts : list string) : option string :=
  match exts with
  | [] => None
  | ext :: exts' =>
      let subtitle_path := posixpath.join video_dir (video_base ++ ext) in
      if os_path.exists_ fs subtitle_path then Some subtitle_path
      else first_existing fs video_dir video_base exts'
  end.

Definition find_related_subtitle (self : t) (fs : FS) (video_path : string)
  : option string :=
  let video_dir := posixpath.dirname video_path in
  let video_base := fst (posixpath.splitext (posixpath.basename video_path)) in
  first_existing fs video_dir video_base (subtitle_iter self).

(** *** File info *)

Definition get_file_info (self : t) (fs : FS) (file_path : string)
  : py (option FileInfo) :=
  if negb (os_path.exists_ fs file_path) then Return None
  else
    let filename := posixpath.basename file_path in
    let file_ext := Str.lower (snd (posixpath.splitext filename)) in
    relative_path ← os_path.relpath fs file_path (library_path self);
    file_size ← os_path.getsize fs file_path;
    modified_time ← os_path.getmtime fs file_path;
    let info :=
      {| filename := filename;
         full_path := file_path;
         relative_path := relative_path;
         directory := posixpath.dirname relative_path;
         extension := file_ext;
         size := file_size;
         modified := modified_time;
         is_video := bool_decide (file_ext ∈ video_extensions);
         is_subtitle := bool_decide (file_ext ∈ subtitle_extensions) |} in
    mret (Some
      {| info := info;
         video_info :=
           if is_video info then
             let subtitle_path := find_related_subtitle self fs file_path in
             Some {| has_subtitle := bool_decide (subtitle_path ≠ None);
                     subtitle_path := subtitle_path |}
           else None |}).

(** *** Paired rename *)

(** The store of [rename_file]: the file system, the local [result]
    that the function mutates and finally returns, and the requests
    made to [os.rename] so far (oldest first), kept so that "nothing
    was attempted" can be said. *)
Record Frame := {
  f_fs : FS;
  f_renames : list (string * string);
  f_result : RenameOutcome
}.

Definition path_exists (path : string) : M Frame bool := λ s,
  (Return (os_path.exists_ (f_fs s) path), s).

Definition rename (src dst : string) : M Frame unit := λ s,
  let s' fs := {| f_fs := fs;
                  f_renames := (f_renames s ++ [(src, dst)])%list;
                  f_result := f_result s |} in
  match os_rename (f_fs s) src dst with
  | Return fs' => (Return tt, s' fs')
  | Raise e => (Raise e, s' (f_fs s))
  end.

Definition update_result (f : RenameOutcome → RenameOutcome) : M Frame unit :=
  modify (λ s, {| f_fs := f_fs s; f_renames := f_renames s;
                  f_result := f (f_result s) |}).

(** [result['message'] = msg] *)
Definition set_message (msg : string) : M Frame unit :=
  update_result (λ r, {| success := success r; message := msg;
                         renamed_files := renamed_files r |}).

(** [result['success'] = b] *)
Definition set_success (b : bool) : M Frame unit :=
  update_result (λ r, {| success := b; message := message r;
                         renamed_files := renamed_files r |}).

(** [result['renamed_files'].append(entry)] *)
Definition append_renamed (entry : Renamed) : M Frame unit :=
  update_result (λ r, {| success := success r; message := message r;
                         renamed_files := (renamed_files r ++ [entry])%list |}).

(** The body of the outer [try]; each early [return result] is the end
    of its branch. *)
Definition rename_body (self : t) (old_path new_name : string)
    (rename_subtitle : bool) : M Frame unit :=
  found ← path_exists old_path;
  if negb found then set_message ("File not found: " ++ old_path)
  else
    let old_dir := posixpath.dirname old_path in
    let old_filename := posixpath.basename old_path in
    let old_ext := snd (posixpath.splitext old_filename) in
    let new_base := fst (posixpath.splitext new_name) in
    let new_filename := new_base ++ old_ext in
    let new_path := posixpath.join old_dir new_filename in
    taken ← path_exists new_path;
    if taken && negb (String.eqb new_path old_path) then
      set_message ("Destination file already exists: " ++ new_filename)
    else
      rename old_path new_path;;
      append_renamed {| old := old_path; new := new_path; type := "main" |};;
      (if rename_subtitle
          && bool_decide (Str.lower old_ext ∈ video_extensions) then
         s ← get;
         match find_related_subtitle self (f_fs s) old_path with
         | Some subtitle_path =>
             let subtitle_ext := snd (posixpath.splitext subtitle_path) in
             let new_subtitle_path :=
               posixpath.join old_dir (new_base ++ subtitle_ext) in
             try_except
               (rename subtitle_path new_subtitle_path;;
                append_renamed {| old := subtitle_path;
                                  new := new_subtitle_path;
                                  type := "subtitle" |})
               (λ e, mret tt)
         | None => mret tt
         end
       else mret tt);;
      set_success true;;
      s ← get;
      set_message ("Successfully renamed "
                   ++ Str.of_nat (length (renamed_files (f_result s)))
                   ++ " file(s)").

(** [rename_file]: what the call returns, the file system it leaves
    and the requests it made to [os.rename]. *)
Definition rename_file (self : t) (fs : FS) (old_path new_name : string)
    (rename_subtitle : bool)
  : py RenameOutcome * FS * list (string * string) :=
  let result := {| success := false; message := ""; renamed_files := [] |} in
  let '(r, s) :=
    (try_except
       (rename_body self old_path new_name rename_subtitle)
       (λ e, set_message ("Error: " ++ str_exn e));;
     s ← get;
     mret (f_result s))
      {| f_fs := fs; f_renames := []; f_result := result |} in
  (r, f_fs s, f_renames s).

(** The destination [rename_file] computes for the main file. *)
Definition new_filename_of (old_path new_name : string) : string :=
  fst (posixpath.splitext new_name)
  ++ snd (posixpath.splitext (posixpath.basename old_path)).

Definition new_path_of (old_path new_name : string) : string :=
  posixpath.join (posixpath.dirname old_path) (new_filename_of old_path new_name).

(** The destination it computes for a subtitle found at [subtitle_path]. *)
Definition new_subtitle_path_of (old_path new_name subtitle_path : string)
  : string :=
  posixpath.join (posixpath.dirname old_path)
    (fst (posixpath.splitext new_name) ++ snd (posixpath.splitext subtitle_path)).

(** The entries and the outcomes [rename_file] builds. *)
Definition main_entry (old_path new_name : string) : Renamed :=
  {| old := old_path; new := new_path_of old_path new_name; type := "main" |}.

Definition subtitle_entry (old_path new_name subtitle_path : string) : Renamed :=
  {| old := subtitle_path;
     new := new_subtitle_path_of old_path new_name subtitle_path;
     type := "subtitle" |}.

Definition failed (msg : string) : RenameOutcome :=
  {| success := false; message := msg; renamed_files := [] |}.

Definition renamed (entries : list Renamed) : RenameOutcome :=
  {| success := true;
     message := "Successfully renamed " ++ Str.of_nat (length entries) ++ " file(s)";
     renamed_files := entries |}.

End methods.
End LibraryBrowser.

(** ** A POSIX file system

    A tree of directories and regular files, without symbolic links and
    without permissions; an instance of [OS] to run the browser on. *)

Module posix.

#[local] Set Warnings "-register-all".

Inductive node :=
| File (st : stat_result)
| Dir (st : stat_result) (entries : list (string * node)).

Record fs := { root_entries : list (string * node); cwd : string }.

Definition dir_stat : stat_result := {| st_size := 4096; st_mtime := 0 |}.
Definition root (s : fs) : node := Dir dir_stat (root_entries s).

Definition node_stat (n : node) : stat_result :=
  match n with File st | Dir st _ => st end.

Definition is_dir (n : node) : bool :=
  match n with Dir _ _ => true | File _ => false end.

Fixpoint assoc (name : string) (es : list (string * node)) : option node :=
  match es with
  | [] => None
  | (k, v) :: es' => if String.eqb k name then Some v else assoc name es'
  end.

(** The node at a canonical location (names from the root). *)
Fixpoint lookup (n : node) (names : list string) : option node :=
  match names with
  | [] => Some n
  | name :: rest =>
      match n with
      | Dir _ es =>
          match assoc name es with
          | Some c => lookup c rest
          | None => None
          end
      | File _ => None
      end
  end.

(** Path resolution, component by component; [cur] is the location
    reached so far, innermost name first.  Every component is looked up
    in a directory, so [f.mp4/] and [f.mp4/..] do not resolve. *)
Fixpoint resolve (r : node) (comps cur : list string) : option (list string) :=
  match comps with
  | [] => Some cur
  | c :: rest =>
      match lookup r (rev cur) with
      | Some (Dir _ _) =>
          if String.eqb c "" || String.eqb c "." then resolve r rest cur
          else if String.eqb c ".." then resolve r rest (tl cur)
          else match lookup r (rev (c :: cur)) with
               | Some _ => resolve r rest (c :: cur)
               | None => None
               end
      | _ => None
      end
  end.

Definition components (s : fs) (path : string) : list string :=
  if posixpath.isabs path then Str.split "/" path
  else (Str.split "/" (cwd s) ++ Str.split "/" path)%list.

(** The canonical location of an existing [path] (names from the root). *)
Definition locate (s : fs) (path : string) : option (list string) :=
  if String.eqb path "" then None
  else option_map (@rev string) (resolve (root s) (components s path) []).

Definition stat (s : fs) (path : string) : py stat_result :=
  match locate s path with
  | Some loc =>
      match lookup (root s) loc with
      | Some n => Return (node_stat n)
      | None => Raise (OSError ("[Errno 2] No such file or directory: '" ++ path ++ "'"))
      end
  | None => Raise (OSError ("[Errno 2] No such file or directory: '" ++ path ++ "'"))
  end.

(** Replace, add or remove ([f] returns [None]) the entry [name]. *)
Fixpoint alter_entry (name : string) (f : option node → option node)
    (es : list (string * node)) : list (string * node) :=
  match es with
  | [] => match f None with Some y => [(name, y)] | None => [] end
  | (k, v) :: es' =>
      if String.eqb k name then
        match f (Some v) with Some y => (k, y) :: es' | None => es' end
      else (k, v) :: alter_entry name f es'
  end.

Fixpoint update (names : list string) (f : option node → option node)
    (n : node) : node :=
  match names, n with
  | [name], Dir st es => Dir st (alter_entry name f es)
  | name :: rest, Dir st es =>
      Dir st (map (λ '(k, v), if String.eqb k name then (k, update rest f v)
                              else (k, v)) es)
  | _, _ => n
  end.

(** The location a path would name: its parent must exist and be a
    directory, its last component must be a name. *)
Definition locate_new (s : fs) (path : string) : option (list string) :=
  if String.eqb path "" then None
  else
    let comps := components s path in
    let name := List.last comps "" in
    if String.eqb name "" || String.eqb name "." || String.eqb name ".." then None
    else
      match resolve (root s) (removelast comps) [] with
      | Some cur =>
          match lookup (root s) (rev cur) with
          | Some (Dir _ _) => Some (rev (name :: cur))
          | _ => None
          end
      | None => None
      end.

Fixpoint is_prefix (a b : list string) : bool :=
  match a, b with
  | [], _ => true
  | x :: a', y :: b' => String.eqb x y && is_prefix a' b'
  | _, [] => false
  end.

Definition entries_of (es : list (string * node)) : fs → fs :=
  λ s, {| root_entries := es; cwd := cwd s |}.

Definition with_root (s : fs) (n : node) : fs :=
  match n with
  | Dir _ es => entries_of es s
  | File _ => s
  end.

(** [rename(2)]: an existing regular file at the destination is
    replaced; a directory there is not (unless both are directories and
    it is empty). *)
Definition rename (s : fs) (src dst : string) : py fs :=
  let arrow := "'" ++ src ++ "' -> '" ++ dst ++ "'" in
  let enoent := Raise (OSError ("[Errno 2] No such file or directory: " ++ arrow)) in
  match locate s src with
  | None => enoent
  | Some ls =>
      match lookup (root s) ls, locate_new s dst with
      | Some n, Some ld =>
          let move :=
            Return (with_root s
                      (update ld (λ _, Some n)
                         (update ls (λ _, None) (root s)))) in
          if bool_decide (ls = ld) then Return s
          else if bool_decide (ls = []) then
            Raise (OSError ("[Errno 16] Device or resource busy: " ++ arrow))
          else
            match n, lookup (root s) ld with
            | _, None => if is_prefix ls ld
                         then Raise (OSError ("[Errno 22] Invalid argument: " ++ arrow))
                         else move
            | File _, Some (File _) => move
            | File _, Some (Dir _ _) =>
                Raise (OSError ("[Errno 21] Is a directory: " ++ arrow))
            | Dir _ _, Some (File _) =>
                Raise (OSError ("[Errno 20] Not a directory: " ++ arrow))
            | Dir _ _, Some (Dir _ []) =>
                if is_prefix ls ld
                then Raise (OSError ("[Errno 22] Invalid argument: " ++ arrow))
                else move
            | Dir _ _, Some (Dir _ (_ :: _)) =>
                Raise (OSError ("[Errno 39] Directory not empty: " ++ arrow))
            end
      | _, _ => enoent
      end
  end.

Definition names_where (p : node → bool) (es : list (string * node)) : list string :=
  map fst (List.filter (λ e, p (snd e)) es).

(** [os.walk(top)], top down. *)
Fixpoint walk_node (top : string) (n : node)
  : list (string * list string * list string) :=
  match n with
  | File _ => []
  | Dir _ es =>
      (top, names_where is_dir es, names_where (λ c, negb (is_dir c)) es)
      :: (fix subdirs (l : list (string * node)) :=
            match l with
            | [] => []
            | (name, c) :: l' =>
                (if is_dir c then walk_node (posixpath.join top name) c else [])
                ++ subdirs l'
            end)%list es
  end.

Definition walk (s : fs) (top : string) : list (string * list string * list string) :=
  match locate s top with
  | Some loc =>
      match lookup (root s) loc with
      | Some n => walk_node top n
      | None => []
      end
  | None => []
  end.

#[global] Instance posix_OS : OS fs := {|
  os_stat := stat;
  os_walk := walk;
  os_rename := rename;
  os_getcwd := cwd;
  os_stat_empty := λ s, ex_intro _ _ eq_refl
|}.

End posix.

(** ** A small library to run the browser on *)

Module demo.
Import posix.

Definition file (n : Z) (t : Q) : node := File {| st_size := n; st_mtime := t |}.

(** [/lib] holds [c.mp4], [a.mp4], [b.mp4], the pair [movie.mkv] and
    [movie.srt], two files the catalog ignores, a subtitle [taken.srt],
    a directory [Dir.srt] and [extras/] with a clip and its subtitle. *)
Definition library : fs := {|
  cwd := "/home";
  root_entries := [
    ("home", Dir dir_stat []);
    ("lib", Dir dir_stat [
       ("c.mp4", file 300 30);
       ("a.mp4", file 100 10);
       ("b.mp4", file 200 20);
       ("movie.mkv", file 1000 40);
       ("movie.srt", file 5 41);
       ("notes.txt", file 7 42);
       ("README", file 1 1);
       ("taken.srt", file 9 43);
       ("Dir.srt", Dir dir_stat []);
       ("extras", Dir dir_stat [
          ("clip.AVI", file 50 5);
          ("clip.vtt", file 2 6) ]) ]) ]
|}.

(** The file system after a rename that succeeds. *)
Definition after (s : fs) (src dst : string) : fs :=
  match rename s src dst with
  | Return s' => s'
  | Raise _ => s
  end.

Definition browser : LibraryBrowser.t := {|
  LibraryBrowser.library_path := "/lib";
  LibraryBrowser.subtitle_iter := [".srt"; ".sub"; ".vtt"; ".ass"; ".ssa"]
|}.
End demo.


(** ** Vocabulary of the properties of strings and paths *)

(** [c in s] for a one-character [c]. *)
Fixpoint has_char (c : ascii) (s : string) : bool :=
  match s with
  | EmptyString => false
  | String a s' => Ascii.eqb a c || has_char c s'
  end.

(** An extension as [splitext] returns it: empty, or a dot followed by
    characters that are neither the dot nor the separator. *)
Definition is_extension (ext : string) : Prop :=
  ext = ""
  ∨ ∃ rest, ext = String "." rest
      ∧ has_char "." rest = false ∧ has_char "/" rest = false.

(** A name that [splitext] can put an extension on: its last component
    has a character other than the dot. *)
Definition plain_stem (base : string) : Prop :=
  posixpath.has_non_dot (posixpath.basename base) = true.

(** ** Vocabulary of the properties of the scan *)

Section scan_vocabulary.
Context {FS : Type} `{OS FS}.
Import LibraryBrowser.

(** The test "Only include supported file types". *)
Definition supported (filename : string) : bool :=
  bool_decide (Str.lower (snd (posixpath.splitext filename)) ∈ supported_extensions).

(** The files the walk offers to the catalog, in the order of the walk:
    each [root] with each of its supported [filenames]. *)
Definition names_candidates (root : string) (filenames : list string)
  : list (string * string) :=
  map (pair root) (List.filter supported filenames).

Definition candidates (self : t) (fs : FS) : list (string * string) :=
  flat_map (λ '(root, _, filenames), names_candidates root filenames)
           (os_walk fs (library_path self)).

Definition candidate_path (c : string * string) : string :=
  posixpath.join (fst c) (snd c).

(** The name and the path a candidate gets in the catalog, and those a
    record carries. *)
Definition candidate_entry (c : string * string) : string * string :=
  (snd c, candidate_path c).

Definition record_entry (f : FileRecord) : string * string :=
  (filename f, full_path f).

(** A candidate can be read when [os.stat] returns for its path. *)
Definition readable (fs : FS) (c : string * string) : Prop :=
  ∃ st, os_stat fs (candidate_path c) = Return st.

(** What a record of the catalog says about its file. *)
Definition describes (self : t) (fs : FS) (f : FileRecord) : Prop :=
  full_path f ≠ ""
  ∧ os_path.relpath fs (full_path f) (library_path self) = Return (relative_path f)
  ∧ directory f = posixpath.dirname (relative_path f)
  ∧ os_stat fs (full_path f) = Return {| st_size := size f; st_mtime := modified f |}.

(** How a record of the catalog is classified. *)
Definition classified (f : FileRecord) : Prop :=
  extension f = Str.lower (snd (posixpath.splitext (filename f)))
  ∧ extension f ∈ supported_extensions
  ∧ (is_video f = true ↔ extension f ∈ video_extensions)
  ∧ (is_subtitle f = true ↔ extension f ∈ subtitle_extensions)
  ∧ ¬ (is_video f = true ∧ is_subtitle f = true).

(** How far a loop of the scan got in its candidates: the records found
    are those of the candidates [before], which could all be read, and
    the loop either went through them all or was stopped by the first of
    [after], which could not be read. *)
Definition scanned_up_to (fs : FS) (cands : list (string * string))
    (found : list FileRecord) (stopped : bool) : Prop :=
  ∃ before after,
    cands = (before ++ after)%list
    ∧ Forall (readable fs) before
    ∧ map record_entry found = map candidate_entry before
    ∧ if stopped then ∃ c after', after = c :: after' ∧ ¬ readable fs c
      else after = [].

Definition raised {A} (r : py A) : bool :=
  match r with Return _ => false | Raise _ => true end.
End scan_vocabulary.

(** ** Vocabulary of the properties of the query *)

(** [sub] occurs in [s]. *)
Definition is_substring (sub s : string) : Prop :=
  ∃ pre post, s = pre ++ sub ++ post.

(** The search term occurs in the name or in the relative path of a
    record, letter case apart. *)
Definition mentions (term : string) (f : FileRecord) : Prop :=
  is_substring (Str.lower term) (Str.lower (filename f))
  ∨ is_substring (Str.lower term) (Str.lower (relative_path f)).

(** The order a sort key puts on records: case-insensitive by name, by
    size, or (for every other key) by modification time. *)
Definition file_le (sort_by : string) (x y : FileRecord) : Prop :=
  if String.eqb sort_by "filename" then
    String.leb (Str.lower (filename x)) (Str.lower (filename y)) = true
  else if String.eqb sort_by "size" then size x ≤ size y
  else (modified x <= modified y)%Q.

(** Two records the sort key does not tell apart. *)
Definition file_tied (sort_by : string) (x y : FileRecord) : bool :=
  if String.eqb sort_by "filename" then
    String.eqb (Str.lower (filename x)) (Str.lower (filename y))
  else if String.eqb sort_by "size" then size x =? size y
  else Qeq_bool (modified x) (modified y).

(** The same two notions for any key and any comparison [lt]. *)
Definition key_le {A K : Type} (lt : K → K → bool) (key : A → K) (x y : A)
  : Prop :=
  lt (key y) (key x) = false.

Definition key_tied {A K : Type} (lt : K → K → bool) (key : A → K) (x y : A)
  : bool :=
  negb (lt (key x) (key y)) && negb (lt (key y) (key x)).

Section page_vocabulary.
Context {FS : Type} `{OS FS}.
Import LibraryBrowser.

(** The files of one page of a query ([[]] if the query raises), and the
    number of pages the query announces. *)
Definition page_of (self : t) (fs : FS) (page per_page : Z)
    (search : option string) (sort_by sort_order : string) : list FileRecord :=
  match get_files_paginated self fs page per_page search sort_by sort_order with
  | Return r => files r
  | Raise _ => []
  end.

Definition page_count (self : t) (fs : FS) (per_page : Z)
    (search : option string) (sort_by sort_order : string) : Z :=
  match get_files_paginated self fs 1 per_page search sort_by sort_order with
  | Return r => pagination.total_pages (pagination r)
  | Raise _ => 0
  end.
End page_vocabulary.

(** ** Vocabulary of the properties of subtitles and renames *)

(** The path [find_related_subtitle] tries for an extension. *)
Definition subtitle_candidate (video_path ext : string) : string :=
  posixpath.join (posixpath.dirname video_path)
    (fst (posixpath.splitext (posixpath.basename video_path)) ++ ext).

(** The request to [os.rename] that an entry of [renamed_files] records. *)
Definition request_of (e : Renamed) : string * string := (old e, new e).

(** ** A file system with dangling symbolic links

    A POSIX tree some of whose files are symbolic links to nothing:
    [os.walk] lists them among the file names, [os.stat] follows them and
    raises.  The links are given by their paths. *)

Module dangling.

Record fs := { tree : posix.fs; links : list string }.

Definition stat (s : fs) (path : string) : py stat_result :=
  if existsb (String.eqb path) (links s) then
    Raise (OSError ("[Errno 2] No such file or directory: '" ++ path ++ "'"))
  else posix.stat (tree s) path.

Definition rename (s : fs) (src dst : string) : py fs :=
  match posix.rename (tree s) src dst with
  | Return tree' =>
      Return {| tree := tree';
                links := map (λ l, if String.eqb l src then dst else l) (links s) |}
  | Raise e => Raise e
  end.

Definition stat_empty (s : fs) : ∃ e, stat s "" = Raise e :=
  match existsb (String.eqb "") (links s) as b
    return ∃ e, (if b then
                   Raise (OSError ("[Errno 2] No such file or directory: '" ++ "" ++ "'"))
                 else posix.stat (tree s) "") = Raise e
  with
  | true => ex_intro _ _ eq_refl
  | false => ex_intro _ _ eq_refl
  end.

#[global] Instance dangling_OS : OS fs := {|
  os_stat := stat;
  os_walk := λ s, posix.walk (tree s);
  os_rename := rename;
  os_getcwd := λ s, posix.cwd (tree s);
  os_stat_empty := stat_empty
|}.

End dangling.

Module demo_dangling.
Import posix.

(** [/lib] holds [c.mp4], a link [lost.mkv] to a file that is gone, and
    [a.mp4]. *)
Definition library : dangling.fs := {|
  dangling.tree := {|
    cwd := "/";
    root_entries := [
      ("lib", Dir dir_stat [
         ("c.mp4", demo.file 300 30);
         ("lost.mkv", demo.file 0 0);
         ("a.mp4", demo.file 100 10) ]) ] |};
  dangling.links := ["/lib/lost.mkv"]
|}.
End demo_dangling.

(** A library whose names have accented letters: [É.mp4], [à.mp4] and
    [été.mp4]. *)
Module demo_accents.
Import posix.

Definition E_acute : ascii := "201".
Definition e_acute : ascii := "233".
Definition a_grave : ascii := "224".

(** The words [ÉTÉ] and [été], and the three names. *)
Definition ETE : string := String E_acute (String "T" (String E_acute "")).
Definition ete : string := String e_acute (String "t" (String e_acute "")).
Definition E_mp4 : string := String E_acute ".mp4".
Definition a_mp4 : string := String a_grave ".mp4".
Definition ete_mp4 : string :=
  String e_acute (String "t" (String e_acute ".mp4")).

Definition library : fs := {|
  cwd := "/home";
  root_entries := [
    ("home", Dir dir_stat []);
    ("lib", Dir dir_stat [
       (E_mp4, demo.file 1 1);
       (a_mp4, demo.file 2 2);
       (ete_mp4, demo.file 3 3) ]) ]
|}.
End demo_accents.

(** Evaluation on concrete inputs. *)
Ltac run := vm_compute; reflexivity.
Ltac decided := apply (bool_decide_unpack _); vm_compute; exact I.

(** * Properties *)

(** ** Path functions and lists at work *)

Example splitext_examples :
  posixpath.splitext "/lib/movie.mp4" = ("/lib/movie", ".mp4")
  ∧ posixpath.splitext "Movie (2010).avi" = ("Movie (2010)", ".avi")
  ∧ posixpath.splitext ".mp4" = (".mp4", "")
  ∧ posixpath.splitext "a.b/c" = ("a.b/c", "").
Proof. repeat split; reflexivity. Qed.

Example sort_stable :
  list_sort Z.ltb fst false [(2, "a"); (1, "b"); (2, "c"); (1, "d")]
  = [(1, "b"); (1, "d"); (2, "a"); (2, "c")]
  ∧ list_sort Z.ltb fst true [(2, "a"); (1, "b"); (2, "c"); (1, "d")]
  = [(2, "a"); (2, "c"); (1, "b"); (1, "d")].
Proof. split; reflexivity. Qed.

Example slice_examples :
  slice [1; 2; 3; 4; 5] 0 (-2) = [1; 2; 3]
  ∧ slice [1; 2; 3; 4; 5] 4 6 = [5]
  ∧ slice [1; 2; 3] 6 8 = [].
Proof. repeat split; reflexivity. Qed.

(** ** The sort *)

Section sort_facts.
Context {A K : Type} (lt : K → K → bool) (key : A → K).

Lemma insert_sorted_perm (x : A) (l : list A) :
  Permutation (insert_sorted lt key x l) (x :: l).
Proof.
  induction l as [|y l IH]; simpl; [reflexivity|].
  destruct (lt (key y) (key x)); [|reflexivity].
  rewrite IH. apply perm_swap.
Qed.

Lemma stable_sort_perm (l : list A) : Permutation (stable_sort lt key l) l.
Proof.
  induction l as [|x l IH]; simpl; [reflexivity|].
  rewrite insert_sorted_perm. by constructor.
Qed.

Lemma list_sort_perm (reverse : bool) (l : list A) :
  Permutation (list_sort lt key reverse l) l.
Proof.
  destruct reverse; simpl; [|apply stable_sort_perm].
  rewrite <- Permutation_rev, stable_sort_perm.
  symmetry. apply Permutation_rev.
Qed.
End sort_facts.

(** Sorting by an integer key: with pairwise distinct keys the result is
    strictly increasing, and a strictly increasing arrangement of a
    collection is unique. *)
Section sort_by_Z.
Context {A : Type} (key : A → Z).
Lemma insert_sorted_strict (x : A) (l : list A) :
  StronglySorted (key_lt key) l →
  key x ∉ map key l →
  StronglySorted (key_lt key) (insert_sorted Z.ltb key x l).
Proof.
  induction 1 as [|y l Hl IH Hy]; intros Hx; simpl.
  - repeat constructor.
  - simpl in Hx. rewrite not_elem_of_cons in Hx. destruct Hx as [Hxy Hx].
    destruct (Z.ltb_spec (key y) (key x)) as [Hlt|Hge].
    + constructor; [by apply IH|].
      eapply Permutation_Forall; [symmetry; apply insert_sorted_perm|].
      by constructor.
    + assert (key x < key y) as Hlt by lia.
      constructor; [by constructor|].
      constructor; [done|].
      eapply Forall_impl; [exact Hy|]. unfold key_lt. simpl. lia.
Qed.

Lemma stable_sort_strict (l : list A) :
  NoDup (map key l) → StronglySorted (key_lt key) (stable_sort Z.ltb key l).
Proof.
  induction l as [|x l IH]; simpl; intros Hnd; [constructor|].
  apply NoDup_cons in Hnd as [Hx Hnd].
  apply insert_sorted_strict; [by apply IH|].
  intros Hin. apply Hx.
  eapply elem_of_Permutation_proper; [|exact Hin].
  apply Permutation_map. symmetry. apply stable_sort_perm.
Qed.

Lemma strict_sorted_unique (l1 l2 : list A) :
  StronglySorted (key_lt key) l1 → StronglySorted (key_lt key) l2 →
  Permutation l1 l2 → l1 = l2.
Proof.
  intros H1. revert l2.
  induction H1 as [|a l1 Hl1 IH Ha]; intros l2 H2 Hp.
  - by apply Permutation_nil in Hp.
  - destruct H2 as [|b l2 Hl2 Hb].
    { symmetry in Hp. by apply Permutation_nil in Hp. }
    assert (a = b) as ->.
    { assert (a ∈ b :: l2) as Hin1 by (rewrite <- Hp; left).
      assert (b ∈ a :: l1) as Hin2 by (rewrite Hp; left).
      apply elem_of_cons in Hin1 as [?|Hin1]; [done|].
      apply elem_of_cons in Hin2 as [?|Hin2]; [done|].
      rewrite Forall_forall in Ha, Hb.
      specialize (Ha _ Hin2). specialize (Hb _ Hin1).
      unfold key_lt in *. lia. }
    f_equal. apply IH; [done|]. by apply Permutation_cons_inv in Hp.
Qed.

Lemma stable_sort_rev (l : list A) :
  NoDup (map key l) →
  stable_sort Z.ltb key (rev l) = stable_sort Z.ltb key l.
Proof.
  intros Hnd. apply strict_sorted_unique.
  - apply stable_sort_strict. rewrite map_rev.
    by rewrite <- Permutation_rev.
  - by apply stable_sort_strict.
  - rewrite !stable_sort_perm. symmetry. apply Permutation_rev.
Qed.

Lemma list_sort_reverse (l : list A) :
  NoDup (map key l) →
  list_sort Z.ltb key true l = rev (list_sort Z.ltb key false l).
Proof. intros Hnd. simpl. by rewrite stable_sort_rev. Qed.
End sort_by_Z.

(** ** Lists, slices and page counts *)

Lemma filter_len_perm {A} (p : A → bool) (l1 l2 : list A) :
  Permutation l1 l2 → len (List.filter p l1) = len (List.filter p l2).
Proof.
  unfold len. intros Hp. f_equal.
  induction Hp as [|x l1 l2 _ IH|x y l|l1 l2 l3 _ IH1 _ IH2]; simpl.
  - done.
  - destruct (p x); simpl; lia.
  - destruct (p x), (p y); simpl; lia.
  - lia.
Qed.

Lemma slice_whole {A} (l : list A) (stop : Z) :
  len l ≤ stop → slice l 0 stop = l.
Proof.
  unfold slice, slice_index, len. intros Hn.
  destruct (Z.ltb_spec stop 0); [lia|].
  change (0 <? 0) with false. cbv iota.
  rewrite (Z.min_l 0) by lia. rewrite (Z.min_r stop) by lia.
  rewrite Z.sub_0_r, Nat2Z.id. apply firstn_all.
Qed.

Lemma slice_nil {A} (start stop : Z) : slice (@nil A) start stop = [].
Proof. unfold slice. by rewrite skipn_nil, firstn_nil. Qed.

(** [- (- n / per_page)] is the ceiling of [n / per_page]. *)
Lemma ceiling_bounds (n per_page : Z) :
  0 < per_page →
  (- (- n / per_page) - 1) * per_page < n ≤ - (- n / per_page) * per_page.
Proof.
  intros Hpp.
  pose proof (Z.div_mod (- n) per_page) as Hdm.
  pose proof (Z.mod_pos_bound (- n) per_page Hpp) as Hm.
  nia.
Qed.

Lemma ceiling_positive (n per_page : Z) :
  0 < n → 0 < per_page → 1 ≤ - (- n / per_page).
Proof. intros Hn Hpp. pose proof (ceiling_bounds n per_page Hpp). nia. Qed.

Lemma underflows_negative (a b : Z) : b < 0 → underflows a b = false.
Proof. intros Hb. unfold underflows. by destruct (Z.ltb_spec 0 b); [lia|]. Qed.

Lemma underflows_below (a b : Z) :
  b < a * 2 ^ 1075 → underflows a b = false.
Proof.
  intros Hb. unfold underflows.
  destruct (Z.leb_spec (a * 2 ^ 1075) b); [lia|]. apply andb_false_r.
Qed.

(** A quotient that underflows has a divisor far above the dividend. *)
Lemma underflows_above (a b : Z) :
  0 < a → underflows a b = true → a ≤ b ∧ a * 2 ^ 1075 ≤ b.
Proof.
  unfold underflows. intros Ha Hu. apply andb_true_iff in Hu as [_ Hu].
  apply Z.leb_le in Hu.
  assert (1 ≤ 2 ^ 1075) by (apply (Z.pow_le_mono_r 2 0 1075); lia).
  split; [nia|done].
Qed.

Lemma ceiling_one_page (n per_page : Z) :
  0 < n ≤ per_page → - (- n / per_page) = 1.
Proof.
  intros Hn. pose proof (ceiling_bounds n per_page ltac:(lia)). nia.
Qed.

Lemma len_pos {A} (l : list A) : l ≠ [] → 0 < len l.
Proof. destruct l; [done|]. unfold len. simpl. lia. Qed.

Lemma len_perm {A} (l1 l2 : list A) : Permutation l1 l2 → len l1 = len l2.
Proof. unfold len. intros Hp. f_equal. by apply Permutation_length. Qed.

(** ** The catalog and the query *)

Section query_facts.
Context {FS : Type} `{OS FS}.
Import LibraryBrowser.

Lemma sort_files_perm (sort_by sort_order : string) (l : list FileRecord) :
  Permutation (sort_files sort_by sort_order l) l.
Proof.
  unfold sort_files.
  destruct (String.eqb sort_by "filename"); [apply list_sort_perm|].
  destruct (String.eqb sort_by "size"); apply list_sort_perm.
Qed.

Lemma sort_files_nonempty (sort_by sort_order : string) (l : list FileRecord) :
  l ≠ [] → sort_files sort_by sort_order l ≠ [].
Proof.
  intros Hl Hs. apply Hl. apply Permutation_nil.
  rewrite <- Hs. apply sort_files_perm.
Qed.

Lemma sort_files_nil (sort_by sort_order : string) :
  sort_files sort_by sort_order [] = [].
Proof.
  apply Permutation_nil. symmetry. apply sort_files_perm.
Qed.

Lemma sum_sizes_from (l : list FileRecord) (acc : Z) :
  fold_left (λ a f, a + size f) l acc = acc + sum_sizes l.
Proof.
  unfold sum_sizes. revert acc.
  induction l as [|x l IH]; intros acc; simpl; [lia|].
  rewrite (IH (acc + size x)), (IH (0 + size x)). lia.
Qed.

Lemma sum_sizes_cons (x : FileRecord) (l : list FileRecord) :
  sum_sizes (x :: l) = size x + sum_sizes l.
Proof. unfold sum_sizes at 1. simpl. apply sum_sizes_from. Qed.

Lemma sum_sizes_perm (l1 l2 : list FileRecord) :
  Permutation l1 l2 → sum_sizes l1 = sum_sizes l2.
Proof.
  induction 1; rewrite ?sum_sizes_cons; try lia.
Qed.

(** What [paginate] returns once the page count [tp] is known. *)
Lemma paginate_with (all_files : list FileRecord) (page per_page tp : Z) :
  (if len all_files >? 0 then ceil_div (len all_files) per_page else Return 1)
  = Return tp →
  ∃ r, paginate all_files page per_page = Return r
    ∧ files r = slice all_files ((Z.max 1 (Z.min page tp) - 1) * per_page)
                  ((Z.max 1 (Z.min page tp) - 1) * per_page + per_page)
    ∧ pagination r =
        {| pagination.current_page := Z.max 1 (Z.min page tp);
           pagination.per_page := per_page;
           pagination.total_files := len all_files;
           pagination.total_pages := tp;
           pagination.has_previous := Z.max 1 (Z.min page tp) >? 1;
           pagination.has_next := Z.max 1 (Z.min page tp) <? tp |}
    ∧ stats r =
        {| stats.total_files := len all_files;
           stats.video_files := len (List.filter is_video all_files);
           stats.subtitle_files := len (List.filter is_subtitle all_files);
           stats.total_size := sum_sizes all_files |}.
Proof.
  intros Htp. unfold paginate. rewrite Htp. simpl.
  eexists. split; [reflexivity|]. simpl. done.
Qed.

Lemma page_count_nonempty (all_files : list FileRecord) (per_page : Z) :
  all_files ≠ [] → per_page ≠ 0 →
  (if len all_files >? 0 then ceil_div (len all_files) per_page else Return 1)
  = Return (if underflows (len all_files) per_page then 0
            else - (- len all_files / per_page)).
Proof.
  intros Hne Hpp. apply len_pos in Hne.
  destruct (Z.gtb_spec (len all_files) 0); [|lia].
  unfold ceil_div. destruct (Z.eqb_spec per_page 0); [done|].
  by destruct (underflows _ _).
Qed.

Lemma page_count_empty (per_page : Z) :
  (if len (@nil FileRecord) >? 0 then ceil_div (len (@nil FileRecord)) per_page
   else Return 1) = Return 1.
Proof. reflexivity. Qed.

End query_facts.

Section query_claims.
Context {FS : Type} `{OS FS}.
Import LibraryBrowser.

(** The query returns a result exactly when it does not divide by
    zero: [per_page] is not [0], or there is nothing to paginate. *)
Lemma query_returns_iff (self : t) (fs : FS) (page per_page : Z)
    (search : option string) (sort_by sort_order : string) :
  (∃ r, get_files_paginated self fs page per_page search sort_by sort_order
        = Return r)
  ↔ (per_page ≠ 0 ∨ filtered self fs search = []).
Proof.
  unfold get_files_paginated. fold (filtered self fs search).
  destruct (decide (filtered self fs search = [])) as [Hnil|Hne].
  - rewrite Hnil, sort_files_nil. split; [by right|]. intros _.
    destruct (paginate_with [] page per_page 1 (page_count_empty per_page))
      as (r & Hr & _). eauto.
  - split.
    + intros [r Hr]. left. intros ->.
      apply (sort_files_nonempty sort_by sort_order), len_pos in Hne.
      unfold paginate in Hr.
      destruct (Z.gtb_spec (len (sort_files sort_by sort_order
                                    (filtered self fs search))) 0); [|lia].
      discriminate Hr.
    + intros [Hpp|?]; [|done].
      apply (sort_files_nonempty sort_by sort_order) in Hne.
      destruct (paginate_with _ page per_page _
                  (page_count_nonempty _ per_page Hne Hpp)) as (r & Hr & _).
      eauto.
Qed.

(** X21: over a non-empty filtered set and with a positive [per_page] whose
    quotient does not underflow, the page count is the ceiling of the
    quotient, the requested page is clamped into [1 .. total_pages]
    before slicing, [has_previous] and [has_next] compare the clamped
    page with the two ends, and a request beyond the last page gets the
    answer of the last page, with [has_next] false. *)
Theorem page_clamped (self : t) (fs : FS) (page per_page : Z)
    (search : option string) (sort_by sort_order : string) :
  filtered self fs search ≠ [] →
  0 < per_page < len (filtered self fs search) * 2 ^ 1075 →
  ∃ r tp cp,
    get_files_paginated self fs page per_page search sort_by sort_order = Return r
    ∧ pagination.total_pages (pagination r) = tp
    ∧ pagination.current_page (pagination r) = cp
    ∧ (tp - 1) * per_page < len (filtered self fs search) ≤ tp * per_page
    ∧ cp = Z.max 1 (Z.min page tp)
    ∧ 1 ≤ cp ≤ tp
    ∧ files r = slice (sort_files sort_by sort_order (filtered self fs search))
                  ((cp - 1) * per_page) ((cp - 1) * per_page + per_page)
    ∧ pagination.has_previous (pagination r) = (cp >? 1)
    ∧ pagination.has_next (pagination r) = (cp <? tp)
    ∧ (tp < page →
         cp = tp
         ∧ pagination.has_next (pagination r) = false
         ∧ get_files_paginated self fs tp per_page search sort_by sort_order
           = Return r).
Proof.
  intros Hne [Hpp Hlarge].
  pose proof (sort_files_nonempty sort_by sort_order _ Hne) as Hne'.
  pose proof (sort_files_perm sort_by sort_order (filtered self fs search)) as Hperm.
  assert (per_page ≠ 0) as Hpp0 by lia.
  pose proof (page_count_nonempty _ per_page Hne' Hpp0) as Hcount.
  rewrite <- (len_perm _ _ Hperm) in Hlarge.
  rewrite (underflows_below _ _ Hlarge) in Hcount. clear Hlarge.
  unfold get_files_paginated. fold (filtered self fs search).
  set (all_files := sort_files sort_by sort_order (filtered self fs search)) in *.
  set (tp := - (- len all_files / per_page)) in *.
  destruct (paginate_with all_files page per_page tp Hcount)
    as (r & Hr & Hfiles & Hpag & _).
  assert (1 ≤ tp) as Htp by (apply ceiling_positive; [by apply len_pos|done]).
  exists r, tp, (Z.max 1 (Z.min page tp)).
  rewrite Hpag, Hfiles. simpl.
  rewrite <- (len_perm _ _ Hperm).
  split_and!; try done; try lia; try apply (ceiling_bounds _ _ Hpp).
  intros Hbig. split_and!; [lia|lia|].
  { destruct (paginate_with all_files tp per_page tp Hcount)
      as (r' & Hr' & Hfiles' & Hpag' & Hstats').
    destruct (paginate_with all_files page per_page tp Hcount)
      as (r'' & Hr'' & Hfiles'' & Hpag'' & Hstats'').
    assert (r'' = r) as -> by congruence.
    rewrite Hr'. f_equal.
    destruct r as [f p s], r' as [f' p' s']. simpl in *.
    replace (Z.max 1 (Z.min page tp)) with tp in * by lia.
    replace (Z.max 1 (Z.min tp tp)) with tp in * by lia.
    congruence. }
Qed.

(** C6: whatever page and positive [per_page] are asked for, the stats
    of the result count the whole filtered set, not the page:
    [total_files] is its size, [video_files] and [subtitle_files] count
    its videos and subtitles, [total_size] adds up its sizes. *)
Theorem C6_stats_over_filtered_set (self : t) (fs : FS) (page per_page : Z)
    (search : option string) (sort_by sort_order : string) :
  0 < per_page →
  ∃ r,
    get_files_paginated self fs page per_page search sort_by sort_order = Return r
    ∧ stats.total_files (stats r) = len (filtered self fs search)
    ∧ stats.video_files (stats r)
      = len (List.filter is_video (filtered self fs search))
    ∧ stats.subtitle_files (stats r)
      = len (List.filter is_subtitle (filtered self fs search))
    ∧ stats.total_size (stats r) = sum_sizes (filtered self fs search).
Proof.
  intros Hpp.
  pose proof (sort_files_perm sort_by sort_order (filtered self fs search)) as Hperm.
  unfold get_files_paginated. fold (filtered self fs search).
  set (all_files := sort_files sort_by sort_order (filtered self fs search)) in *.
  assert (∃ tp, (if len all_files >? 0 then ceil_div (len all_files) per_page
                 else Return 1) = Return tp) as [tp Htp].
  { destruct (decide (all_files = [])) as [->|Hne].
    - by exists 1.
    - eexists. apply page_count_nonempty; [done|lia]. }
  destruct (paginate_with all_files page per_page tp Htp)
    as (r & Hr & _ & _ & Hstats).
  exists r. rewrite Hstats. simpl.
  split_and!; [done|by apply len_perm|by apply filter_len_perm..|].
  by apply sum_sizes_perm.
Qed.

(** C7: when the filtered set is empty (and [per_page] is positive) the
    query succeeds with one page, no files and neither a previous nor a
    next page. *)
Theorem C7_empty_filtered_set (self : t) (fs : FS) (page per_page : Z)
    (search : option string) (sort_by sort_order : string) :
  filtered self fs search = [] →
  0 < per_page →
  ∃ r,
    get_files_paginated self fs page per_page search sort_by sort_order = Return r
    ∧ files r = []
    ∧ pagination.total_pages (pagination r) = 1
    ∧ pagination.current_page (pagination r) = 1
    ∧ pagination.total_files (pagination r) = 0
    ∧ pagination.has_previous (pagination r) = false
    ∧ pagination.has_next (pagination r) = false.
Proof.
  intros Hnil _.
  unfold get_files_paginated. fold (filtered self fs search).
  rewrite Hnil, sort_files_nil.
  destruct (paginate_with [] page per_page 1 (page_count_empty per_page))
    as (r & Hr & Hfiles & Hpag & _).
  exists r. rewrite Hfiles, Hpag, slice_nil. simpl.
  replace (Z.max 1 (Z.min page 1)) with 1 by lia.
  done.
Qed.

(** Sorting by size, descending, is the reverse of sorting by size,
    ascending, when no two sizes are equal. *)
Lemma sort_by_size_reversed (sort_order : string) (l : list FileRecord) :
  sort_order ≠ "desc" →
  NoDup (map size l) →
  sort_files "size" "desc" l = rev (sort_files "size" sort_order l).
Proof.
  intros Hasc Hnd. unfold sort_files.
  change (String.eqb "size" "filename") with false.
  change (String.eqb "size" "size") with true.
  change (String.eqb "desc" "desc") with true.
  apply String.eqb_neq in Hasc. rewrite Hasc. cbv iota.
  by apply list_sort_reverse.
Qed.

(** C8: when the records of the filtered set have pairwise distinct
    sizes, the order by size descending is exactly the reverse of the
    order by size ascending; a query that asks for the whole set on one
    page returns the two orders. *)
Theorem C8_size_orders_reversed (self : t) (fs : FS) (search : option string) :
  NoDup (map size (filtered self fs search)) →
  sort_files "size" "desc" (filtered self fs search)
  = rev (sort_files "size" "asc" (filtered self fs search))
  ∧ ∀ page per_page,
      len (filtered self fs search) ≤ per_page →
      0 < per_page →
      ∃ up down,
        get_files_paginated self fs page per_page search "size" "asc" = Return up
        ∧ get_files_paginated self fs page per_page search "size" "desc"
          = Return down
        ∧ files up = sort_files "size" "asc" (filtered self fs search)
        ∧ files down = rev (files up).
Proof.
  intros Hnd.
  pose proof (sort_by_size_reversed "asc" _ ltac:(done) Hnd) as Hrev.
  split; [done|]. intros page per_page Hlen Hpp.
  assert (∀ sort_order, ∃ r,
             get_files_paginated self fs page per_page search "size" sort_order
             = Return r
             ∧ files r = sort_files "size" sort_order (filtered self fs search))
    as Hwhole.
  { intros sort_order.
    pose proof (sort_files_perm "size" sort_order (filtered self fs search))
      as Hperm.
    unfold get_files_paginated. fold (filtered self fs search).
    set (all_files := sort_files "size" sort_order (filtered self fs search)) in *.
    apply len_perm in Hperm.
    destruct (decide (all_files = [])) as [Hnil|Hne].
    - rewrite Hnil.
      destruct (paginate_with [] page per_page 1 (page_count_empty per_page))
        as (r & Hr & Hfiles & _).
      exists r. by rewrite Hfiles, slice_nil.
    - destruct (paginate_with all_files page per_page _
                  (page_count_nonempty _ per_page Hne ltac:(lia)))
        as (r & Hr & Hfiles & _).
      exists r. split; [done|]. rewrite Hfiles.
      destruct (underflows _ _).
      + replace (Z.max 1 (Z.min page 0)) with 1 by lia.
        apply slice_whole. lia.
      + rewrite ceiling_one_page by (apply len_pos in Hne; lia).
        replace (Z.max 1 (Z.min page 1)) with 1 by lia.
        apply slice_whole. lia. }
  destruct (Hwhole "asc") as (up & Hup & Hfup).
  destruct (Hwhole "desc") as (down & Hdown & Hfdown).
  exists up, down. split_and!; [done..|]. by rewrite Hfup, Hfdown.
Qed.

(** C9: when the library path does not exist the scan returns the empty
    list. *)
Theorem C9_missing_root (self : t) (fs : FS) :
  os_path.exists_ fs (library_path self) = false →
  _get_all_files self fs = [].
Proof. intros Hmissing. unfold _get_all_files. by rewrite Hmissing. Qed.

End query_claims.

(** ** The paired rename *)

Section rename_facts.
Context {FS : Type} `{OS FS}.
Import LibraryBrowser.

(** [rename_file], path by path. *)
Lemma rename_file_paths (self : t) (fs : FS) (old_path new_name : string)
    (rename_subtitle : bool) :
  rename_file self fs old_path new_name rename_subtitle =
  let new_path := new_path_of old_path new_name in
  let old_ext := snd (posixpath.splitext (posixpath.basename old_path)) in
  if negb (os_path.exists_ fs old_path) then
    (Return (failed ("File not found: " ++ old_path)), fs, [])
  else if os_path.exists_ fs new_path && negb (String.eqb new_path old_path) then
    (Return (failed ("Destination file already exists: "
                     ++ new_filename_of old_path new_name)), fs, [])
  else
    match os_rename fs old_path new_path with
    | Raise e =>
        (Return (failed ("Error: " ++ str_exn e)), fs, [(old_path, new_path)])
    | Return fs1 =>
        let main := main_entry old_path new_name in
        if rename_subtitle
           && bool_decide (Str.lower old_ext ∈ video_extensions) then
          match find_related_subtitle self fs1 old_path with
          | Some subtitle_path =>
              let new_subtitle_path :=
                new_subtitle_path_of old_path new_name subtitle_path in
              match os_rename fs1 subtitle_path new_subtitle_path with
              | Return fs2 =>
                  (Return (renamed [main;
                                    subtitle_entry old_path new_name subtitle_path]),
                   fs2,
                   [(old_path, new_path); (subtitle_path, new_subtitle_path)])
              | Raise _ =>
                  (Return (renamed [main]), fs1,
                   [(old_path, new_path); (subtitle_path, new_subtitle_path)])
              end
          | None => (Return (renamed [main]), fs1, [(old_path, new_path)])
          end
        else (Return (renamed [main]), fs1, [(old_path, new_path)])
    end.
Proof.
  unfold rename_file, rename_body, new_path_of, new_filename_of,
    new_subtitle_path_of, main_entry, subtitle_entry, failed, renamed.
  generalize (bool_decide
    (Str.lower (snd (posixpath.splitext (posixpath.basename old_path)))
     ∈ video_extensions)) as video.
  intros video.
  unfold try_except, path_exists, rename, set_message, set_success,
    append_renamed, update_result, modify, get, mbind, M_bind, bind, mret,
    M_ret, ret.
  cbn [f_fs f_renames f_result fst snd].
  destruct (os_path.exists_ fs old_path); cbn [negb]; [|reflexivity].
  cbn [f_fs f_renames f_result fst snd].
  destruct (os_path.exists_ fs _ && negb _); [reflexivity|].
  cbn [f_fs f_renames f_result fst snd].
  destruct (os_rename fs old_path _) as [fs1|e]; [|reflexivity].
  cbn [f_fs f_renames f_result fst snd app].
  destruct (rename_subtitle && video); [|reflexivity].
  cbn [f_fs f_renames f_result fst snd app].
  destruct (find_related_subtitle self fs1 old_path) as [sp|]; [|reflexivity].
  cbn [f_fs f_renames f_result fst snd app].
  destruct (os_rename fs1 sp _); reflexivity.
Qed.

(** C2: a rename whose source does not exist, and a rename whose
    destination exists and is not the source, return [success = false]
    with a message that says which, list no renamed file, leave the file
    system as it was and ask the operating system for no rename. *)
Theorem C2_rename_refused (self : t) (fs : FS) (old_path new_name : string)
    (rename_subtitle : bool) :
  os_path.exists_ fs old_path = false
  ∨ (os_path.exists_ fs (new_path_of old_path new_name) = true
     ∧ new_path_of old_path new_name ≠ old_path) →
  rename_file self fs old_path new_name rename_subtitle
  = (Return {| success := false;
               message :=
                 if os_path.exists_ fs old_path
                 then "Destination file already exists: "
                      ++ new_filename_of old_path new_name
                 else "File not found: " ++ old_path;
               renamed_files := [] |},
     fs, []).
Proof.
  intros Hpre. rewrite rename_file_paths. cbv zeta.
  destruct (os_path.exists_ fs old_path) eqn:Hold; [|reflexivity].
  destruct Hpre as [?|[Htaken Hother]]; [done|].
  apply String.eqb_neq in Hother. by rewrite Htaken, Hother.
Qed.

(** C4: for a video renamed with [rename_subtitle = True], once the
    main rename has succeeded the call reports success whatever happens
    to the subtitle.  If the subtitle rename raises, the outcome lists
    the main entry alone and the file system is the one the main rename
    left (nothing is undone); if it completes, the subtitle entry
    follows the main entry; with no subtitle found, the main entry
    stands alone. *)
Theorem C4_subtitle_failure_tolerated (self : t) (fs fs1 : FS)
    (old_path new_name : string) :
  os_path.exists_ fs old_path = true →
  (os_path.exists_ fs (new_path_of old_path new_name) = false
   ∨ new_path_of old_path new_name = old_path) →
  Str.lower (snd (posixpath.splitext (posixpath.basename old_path)))
    ∈ video_extensions →
  os_rename fs old_path (new_path_of old_path new_name) = Return fs1 →
  ∃ out fs' calls,
    rename_file self fs old_path new_name true = (Return out, fs', calls)
    ∧ success out = true
    ∧ match find_related_subtitle self fs1 old_path with
      | Some subtitle_path =>
          match os_rename fs1 subtitle_path
                  (new_subtitle_path_of old_path new_name subtitle_path) with
          | Raise _ =>
              renamed_files out = [main_entry old_path new_name]
              ∧ message out = "Successfully renamed 1 file(s)"
              ∧ fs' = fs1
          | Return fs2 =>
              renamed_files out
              = [main_entry old_path new_name;
                 subtitle_entry old_path new_name subtitle_path]
              ∧ message out = "Successfully renamed 2 file(s)"
              ∧ fs' = fs2
          end
          ∧ calls = [(old_path, new_path_of old_path new_name);
                     (subtitle_path,
                      new_subtitle_path_of old_path new_name subtitle_path)]
      | None =>
          renamed_files out = [main_entry old_path new_name]
          ∧ message out = "Successfully renamed 1 file(s)"
          ∧ fs' = fs1
          ∧ calls = [(old_path, new_path_of old_path new_name)]
      end.
Proof.
  intros Hold Hfree Hvideo Hmain.
  rewrite rename_file_paths. cbv zeta.
  rewrite Hold, Hmain, (bool_decide_eq_true_2 _ Hvideo).
  assert (os_path.exists_ fs (new_path_of old_path new_name)
          && negb (String.eqb (new_path_of old_path new_name) old_path) = false)
    as ->.
  { destruct Hfree as [->| ->]; [done|].
    rewrite String.eqb_refl. apply andb_false_r. }
  cbn [negb andb].
  destruct (find_related_subtitle self fs1 old_path) as [sp|].
  - destruct (os_rename fs1 sp _) as [fs2|e]; do 3 eexists; by split_and!.
  - do 3 eexists. by split_and!.
Qed.

(** C10: the subtitle rename looks at no destination.  For a video
    whose main rename succeeded and whose subtitle is found, the rename
    of the subtitle is requested from the operating system even though
    another file sits at its destination; where that request succeeds
    (the primitive replaces the file), the outcome is a success with the
    main and the subtitle entry.  The main rename, in contrast, is
    refused when its destination is taken. *)
Theorem C10_subtitle_destination_unchecked (self : t) (fs fs1 : FS)
    (old_path new_name subtitle_path : string) :
  os_path.exists_ fs old_path = true →
  (os_path.exists_ fs (new_path_of old_path new_name) = false
   ∨ new_path_of old_path new_name = old_path) →
  Str.lower (snd (posixpath.splitext (posixpath.basename old_path)))
    ∈ video_extensions →
  os_rename fs old_path (new_path_of old_path new_name) = Return fs1 →
  find_related_subtitle self fs1 old_path = Some subtitle_path →
  os_path.exists_ fs1 (new_subtitle_path_of old_path new_name subtitle_path)
    = true →
  new_subtitle_path_of old_path new_name subtitle_path ≠ subtitle_path →
  (∃ r fs', rename_file self fs old_path new_name true
            = (r, fs',
               [(old_path, new_path_of old_path new_name);
                (subtitle_path,
                 new_subtitle_path_of old_path new_name subtitle_path)]))
  ∧ (∀ fs2,
       os_rename fs1 subtitle_path
         (new_subtitle_path_of old_path new_name subtitle_path) = Return fs2 →
       rename_file self fs old_path new_name true
       = (Return {| success := true;
                    message := "Successfully renamed 2 file(s)";
                    renamed_files :=
                      [main_entry old_path new_name;
                       subtitle_entry old_path new_name subtitle_path] |},
          fs2,
          [(old_path, new_path_of old_path new_name);
           (subtitle_path,
            new_subtitle_path_of old_path new_name subtitle_path)]))
  ∧ (∀ fs0 old_path0 new_name0 rename_subtitle,
       os_path.exists_ fs0 (new_path_of old_path0 new_name0) = true →
       new_path_of old_path0 new_name0 ≠ old_path0 →
       ∃ out, rename_file self fs0 old_path0 new_name0 rename_subtitle
              = (Return out, fs0, [])
         ∧ success out = false).
Proof.
  intros Hold Hfree Hvideo Hmain Hfound _ _.
  rewrite rename_file_paths. cbv zeta.
  rewrite Hold, Hmain, (bool_decide_eq_true_2 _ Hvideo), Hfound.
  assert (os_path.exists_ fs (new_path_of old_path new_name)
          && negb (String.eqb (new_path_of old_path new_name) old_path) = false)
    as ->.
  { destruct Hfree as [->| ->]; [done|].
    rewrite String.eqb_refl. apply andb_false_r. }
  cbn [negb andb]. split_and!.
  - destruct (os_rename fs1 subtitle_path _); eauto.
  - by intros fs2 ->.
  - intros fs0 old_path0 new_name0 rename_subtitle Htaken Hother.
    rewrite rename_file_paths. cbv zeta.
    apply String.eqb_neq in Hother. rewrite Htaken, Hother.
    destruct (os_path.exists_ fs0 old_path0); eauto.
Qed.
End rename_facts.

(** ** Results and faults *)

Section faults.
Context {FS : Type} `{OS FS}.
Import LibraryBrowser.

Lemma exists_nonempty (fs : FS) (path : string) :
  os_path.exists_ fs path = true → path ≠ "".
Proof.
  intros Hex ->. unfold os_path.exists_ in Hex.
  destruct (os_stat_empty fs) as [e He]. by rewrite He in Hex.
Qed.

Lemma relpath_returns (fs : FS) (path start : string) :
  path ≠ "" → ∃ r, os_path.relpath fs path start = Return r.
Proof.
  intros Hne. unfold os_path.relpath, posixpath.relpath.
  apply String.eqb_neq in Hne. rewrite Hne.
  destruct (_ ++ _)%list; eauto.
Qed.

Lemma rename_file_returns (self : t) (fs : FS) (old_path new_name : string)
    (rename_subtitle : bool) :
  ∃ out fs' calls,
    rename_file self fs old_path new_name rename_subtitle
    = (Return out, fs', calls).
Proof.
  rewrite rename_file_paths. cbv zeta.
  repeat match goal with
         | |- context [if ?b then _ else _] => destruct b
         | |- context [match ?x with _ => _ end] => destruct x
         end; eauto.
Qed.

Lemma get_file_info_returns (self : t) (fs : FS) (file_path : string) :
  ∃ r, get_file_info self fs file_path = Return r.
Proof.
  unfold get_file_info.
  destruct (os_path.exists_ fs file_path) eqn:Hex; cbn [negb]; [|eauto].
  destruct (relpath_returns fs file_path (library_path self)
              (exists_nonempty _ _ Hex)) as [rel ->].
  unfold os_path.getsize, os_path.getmtime.
  unfold os_path.exists_ in Hex.
  destruct (os_stat fs file_path) as [st|]; [|done].
  simpl. eauto.
Qed.

(** C1, as the code has it: [rename_file] and [get_file_info] return a
    result for all arguments; [get_files_paginated] returns one for all
    arguments but [per_page = 0] over a non-empty filtered set, where it
    ends with [ZeroDivisionError]. *)
Theorem C1_structured_results (self : t) (fs : FS) :
  (∀ page per_page search sort_by sort_order,
     per_page ≠ 0 ∨ filtered self fs search = [] →
     ∃ r, get_files_paginated self fs page per_page search sort_by sort_order
          = Return r)
  ∧ (∀ page search sort_by sort_order,
       filtered self fs search ≠ [] →
       get_files_paginated self fs page 0 search sort_by sort_order
       = Raise (ZeroDivisionError "division by zero"))
  ∧ (∀ old_path new_name rename_subtitle,
       ∃ out fs' calls,
         rename_file self fs old_path new_name rename_subtitle
         = (Return out, fs', calls))
  ∧ (∀ file_path, ∃ r, get_file_info self fs file_path = Return r).
Proof.
  split_and!.
  - intros. by apply query_returns_iff.
  - intros page search sort_by sort_order Hne.
    apply (sort_files_nonempty sort_by sort_order), len_pos in Hne.
    unfold get_files_paginated, paginate. fold (filtered self fs search).
    by destruct (Z.gtb_spec (len (sort_files sort_by sort_order
                                    (filtered self fs search))) 0); [|lia].
  - apply rename_file_returns.
  - apply get_file_info_returns.
Qed.
End faults.

(** ** The browser on the demo library *)

Module demo_facts.
Import LibraryBrowser demo.

Example scan_demo :
  map filename (_get_all_files browser library)
  = ["c.mp4"; "a.mp4"; "b.mp4"; "movie.mkv"; "movie.srt"; "taken.srt";
     "clip.AVI"; "clip.vtt"].
Proof. run. Qed.

Example browser_well_formed : well_formed browser.
Proof. unfold well_formed. decided. Qed.

Example query_demo :
  ∃ r, get_files_paginated browser library 1 2 (Some "MP4") "filename" "asc"
       = Return r
    ∧ map filename (files r) = ["a.mp4"; "b.mp4"]
    ∧ pagination.total_pages (pagination r) = 2
    ∧ pagination.has_next (pagination r) = true.
Proof. eexists. split; [run|]. by vm_compute. Qed.

(** C1 fails as stated: with [per_page = 0] and files to paginate, the
    query ends with an exception instead of a result. *)
Lemma C1_counterexample :
  ¬ ∃ r, get_files_paginated browser library 1 0 None "modified" "desc"
         = Return r.
Proof. intros [r Hr]. vm_compute in Hr. discriminate Hr. Qed.

Lemma C1_witness :
  (2 ≠ 0 ∨ filtered browser library None = [])
  ∧ ∃ r, get_files_paginated browser library 1 2 None "modified" "desc"
         = Return r.
Proof.
  split; [left; lia|].
  apply (proj1 (C1_structured_results browser library)). left. lia.
Defined.

Lemma C2_witness :
  os_path.exists_ library "/lib/a.mp4" = true
  ∧ os_path.exists_ library (new_path_of "/lib/a.mp4" "b.mkv") = true
  ∧ new_path_of "/lib/a.mp4" "b.mkv" = "/lib/b.mp4"
  ∧ rename_file browser library "/lib/a.mp4" "b.mkv" true
    = (Return {| success := false;
                 message := "Destination file already exists: b.mp4";
                 renamed_files := [] |},
       library, []).
Proof.
  split_and!; [run..|].
  etrans; [apply (C2_rename_refused browser library "/lib/a.mp4" "b.mkv" true)|run].
  right. split; [run|]. vm_compute. discriminate.
Defined.

Lemma page_clamped_witness :
  ∃ r, get_files_paginated browser library 9 3 None "size" "asc" = Return r
    ∧ pagination.total_pages (pagination r) = 3
    ∧ pagination.current_page (pagination r) = 3
    ∧ pagination.has_next (pagination r) = false
    ∧ get_files_paginated browser library 3 3 None "size" "asc" = Return r.
Proof.
  assert (len (filtered browser library None) = 8) as Hlen by run.
  destruct (page_clamped browser library 9 3 None "size" "asc")
    as (r & tp & cp & Hr & Htp & Hcp & Hceil & _ & _ & _ & _ & _ & Hlast).
  { vm_compute. discriminate. }
  { rewrite Hlen. split; [lia|]. apply Z.ltb_lt. run. }
  rewrite Hlen in Hceil.
  assert (tp = 3) as -> by lia.
  destruct Hlast as (-> & Hnext & Hsame); [lia|].
  exists r. by split_and!.
Defined.

Lemma C6_witness :
  ∃ r, get_files_paginated browser library 2 3 (Some "mp4") "size" "asc"
       = Return r
    ∧ stats.total_files (stats r) = 3
    ∧ stats.total_size (stats r) = 600.
Proof.
  destruct (C6_stats_over_filtered_set browser library 2 3 (Some "mp4")
              "size" "asc") as (r & Hr & Htotal & _ & _ & Hsize); [lia|].
  exists r. split_and!; [done|by rewrite Htotal|by rewrite Hsize].
Defined.

Lemma C7_witness :
  filtered browser library (Some "nothing like this") = []
  ∧ ∃ r, get_files_paginated browser library 4 5 (Some "nothing like this")
           "filename" "desc" = Return r
      ∧ files r = []
      ∧ pagination.total_pages (pagination r) = 1.
Proof.
  split; [run|].
  destruct (C7_empty_filtered_set browser library 4 5
              (Some "nothing like this") "filename" "desc")
    as (r & Hr & Hfiles & Htp & _); [run|lia|].
  by exists r.
Defined.

Lemma C8_witness :
  map filename (sort_files "size" "asc" (filtered browser library None))
  = ["clip.vtt"; "movie.srt"; "taken.srt"; "clip.AVI"; "a.mp4"; "b.mp4";
     "c.mp4"; "movie.mkv"]
  ∧ sort_files "size" "desc" (filtered browser library None)
    = rev (sort_files "size" "asc" (filtered browser library None)).
Proof.
  split; [run|].
  apply (C8_size_orders_reversed browser library None).
  decided.
Defined.

Lemma C9_witness :
  os_path.exists_ library "/media" = false
  ∧ _get_all_files (update_library_path browser "/media") library = [].
Proof.
  split; [run|].
  apply (C9_missing_root (update_library_path browser "/media") library). run.
Defined.

Lemma C4_witness :
  let fs1 := after library "/lib/movie.mkv" "/lib/Dir.mkv" in
  os_rename library "/lib/movie.mkv" "/lib/Dir.mkv" = Return fs1
  ∧ find_related_subtitle browser fs1 "/lib/movie.mkv" = Some "/lib/movie.srt"
  ∧ os_rename fs1 "/lib/movie.srt" "/lib/Dir.srt"
    = Raise (OSError "[Errno 21] Is a directory: '/lib/movie.srt' -> '/lib/Dir.srt'")
  ∧ ∃ out calls,
      rename_file browser library "/lib/movie.mkv" "Dir" true
      = (Return out, fs1, calls)
      ∧ success out = true
      ∧ renamed_files out
        = [{| old := "/lib/movie.mkv"; new := "/lib/Dir.mkv"; type := "main" |}].
Proof.
  intros fs1.
  assert (os_rename library "/lib/movie.mkv" "/lib/Dir.mkv" = Return fs1)
    as Hmain by run.
  assert (find_related_subtitle browser fs1 "/lib/movie.mkv"
          = Some "/lib/movie.srt") as Hfound by run.
  assert (os_rename fs1 "/lib/movie.srt" "/lib/Dir.srt"
          = Raise (OSError "[Errno 21] Is a directory: '/lib/movie.srt' -> '/lib/Dir.srt'"))
    as Hfails by run.
  split_and!; [done..|].
  destruct (C4_subtitle_failure_tolerated browser library fs1
              "/lib/movie.mkv" "Dir")
    as (out & fs' & calls & Hout & Hsuccess & Hrest).
  { run. } { left. run. } { decided. } { exact Hmain. }
  rewrite Hfound in Hrest.
  change (new_subtitle_path_of "/lib/movie.mkv" "Dir" "/lib/movie.srt")
    with "/lib/Dir.srt" in Hrest.
  rewrite Hfails in Hrest. destruct Hrest as [(Hfiles & _ & ->) _].
  exists out, calls. by split_and!.
Defined.

Lemma C10_witness :
  let fs1 := after library "/lib/movie.mkv" "/lib/taken.mkv" in
  let fs2 := after fs1 "/lib/movie.srt" "/lib/taken.srt" in
  os_stat fs1 "/lib/taken.srt" = Return {| st_size := 9; st_mtime := 43 |}
  ∧ os_stat fs2 "/lib/taken.srt" = Return {| st_size := 5; st_mtime := 41 |}
  ∧ rename_file browser library "/lib/movie.mkv" "taken" true
    = (Return {| success := true;
                 message := "Successfully renamed 2 file(s)";
                 renamed_files :=
                   [{| old := "/lib/movie.mkv"; new := "/lib/taken.mkv";
                       type := "main" |};
                    {| old := "/lib/movie.srt"; new := "/lib/taken.srt";
                       type := "subtitle" |}] |},
       fs2,
       [("/lib/movie.mkv", "/lib/taken.mkv");
        ("/lib/movie.srt", "/lib/taken.srt")]).
Proof.
  intros fs1 fs2. split_and!; [run..|].
  apply (C10_subtitle_destination_unchecked browser library fs1
           "/lib/movie.mkv" "taken" "/lib/movie.srt").
  - run.
  - left. run.
  - decided.
  - run.
  - run.
  - run.
  - vm_compute. discriminate.
  - run.
Defined.

(** C3 on the code: over the eight files of the library, a query for
    page 5 with [per_page = 10 ^ 400] returns, but the quotient
    [8 / 10 ^ 400] underflows to [0.0], so the result reports
    [total_pages = 0] and [current_page = 1]: the page is not within
    [1 .. total_pages], and the files returned (all eight) are not the
    slice of page [total_pages], which is empty.  A request for page
    [total_pages] gets the same result. *)
Theorem C3_page_count_underflows :
  ∃ r,
    get_files_paginated browser library 5 (10 ^ 400) None "size" "asc"
    = Return r
    ∧ filtered browser library None ≠ []
    ∧ 0 < 10 ^ 400
    ∧ pagination.total_pages (pagination r) = 0
    ∧ pagination.current_page (pagination r) = 1
    ∧ ¬ (1 ≤ pagination.current_page (pagination r)
           ≤ pagination.total_pages (pagination r))
    ∧ map filename (files r)
      = ["clip.vtt"; "movie.srt"; "taken.srt"; "clip.AVI"; "a.mp4"; "b.mp4";
         "c.mp4"; "movie.mkv"]
    ∧ files r = sort_files "size" "asc" (filtered browser library None)
    ∧ slice (sort_files "size" "asc" (filtered browser library None))
        ((0 - 1) * 10 ^ 400) ((0 - 1) * 10 ^ 400 + 10 ^ 400) = []
    ∧ pagination.has_previous (pagination r) = false
    ∧ pagination.has_next (pagination r) = false
    ∧ get_files_paginated browser library 0 (10 ^ 400) None "size" "asc"
      = Return r.
Proof.
  eexists. split; [run|]. split_and!; try run.
  - vm_compute. discriminate.
  - vm_compute. intros [_ Habsurd]. by apply Habsurd.
Qed.

(** C5 on the code: renaming [movie.mkv] with an empty new name
    succeeds and leaves the file as [.mkv], a name whose extension is
    empty, so that the next scan no longer lists it; and renaming
    [README], which has no extension, to [notes.v2.txt] leaves it as
    [notes.v2], whose extension is [.v2]. *)
Theorem C5_extension_lost :
  ∃ out fs',
    rename_file browser library "/lib/movie.mkv" "" true
    = (Return out, fs',
       [("/lib/movie.mkv", "/lib/.mkv"); ("/lib/movie.srt", "/lib/.srt")])
    ∧ success out = true
    ∧ map new (renamed_files out) = ["/lib/.mkv"; "/lib/.srt"]
    ∧ snd (posixpath.splitext (posixpath.basename "/lib/movie.mkv")) = ".mkv"
    ∧ snd (posixpath.splitext (posixpath.basename "/lib/.mkv")) = ""
    ∧ os_path.exists_ fs' "/lib/.mkv" = true
    ∧ map filename (_get_all_files browser library)
      = ["c.mp4"; "a.mp4"; "b.mp4"; "movie.mkv"; "movie.srt"; "taken.srt";
         "clip.AVI"; "clip.vtt"]
    ∧ map filename (_get_all_files browser fs')
      = ["c.mp4"; "a.mp4"; "b.mp4"; "taken.srt"; "clip.AVI"; "clip.vtt"]
    ∧ fst (fst (rename_file browser library "/lib/README" "notes.v2.txt" true))
      = Return {| success := true;
                  message := "Successfully renamed 1 file(s)";
                  renamed_files :=
                    [{| old := "/lib/README"; new := "/lib/notes.v2";
                        type := "main" |}] |}
    ∧ snd (posixpath.splitext (posixpath.basename "/lib/README")) = ""
    ∧ snd (posixpath.splitext (posixpath.basename "/lib/notes.v2")) = ".v2".
Proof. do 2 eexists. split; [run|]. split_and!; run. Qed.
End demo_facts.

(** * Further properties *)
(** ** Strings *)

Lemma append_cons (a : ascii) (s t : string) :
  String a s ++ t = String a (s ++ t).
Proof. reflexivity. Qed.

Lemma append_nil_l (t : string) : "" ++ t = t.
Proof. reflexivity. Qed.

Lemma append_nil_r (s : string) : s ++ "" = s.
Proof. induction s as [|a s IH]; [done|by rewrite append_cons, IH]. Qed.

Lemma append_assoc (s t u : string) : (s ++ t) ++ u = s ++ t ++ u.
Proof. induction s as [|a s IH]; [done|by rewrite !append_cons, IH]. Qed.

Lemma len_append (s t : string) : Str.len (s ++ t) = Str.len s + Str.len t.
Proof.
  unfold Str.len. induction s as [|a s IH]; [rewrite append_nil_l; simpl; lia|].
  rewrite append_cons. simpl String.length. lia.
Qed.

Lemma len_nonneg (s : string) : 0 ≤ Str.len s.
Proof. unfold Str.len. lia. Qed.

Lemma take_drop (n : nat) (s : string) : Str.take n s ++ Str.drop n s = s.
Proof.
  revert s. induction n as [|n IH]; intros [|a s]; simpl; try done.
  by rewrite append_cons, IH.
Qed.

Lemma take_append (s t : string) : Str.take (String.length s) (s ++ t) = s.
Proof.
  induction s as [|a s IH]; [by destruct t|].
  rewrite append_cons. simpl. by rewrite IH.
Qed.

Lemma drop_append (s t : string) : Str.drop (String.length s) (s ++ t) = t.
Proof. induction s as [|a s IH]; [done|]. by rewrite append_cons. Qed.

Lemma drop_append_le (n : nat) (s t : string) :
  (n ≤ String.length s)%nat → Str.drop n (s ++ t) = Str.drop n s ++ t.
Proof.
  revert s. induction n as [|n IH]; intros [|a s] Hn; simpl in *; try done.
  - lia.
  - apply IH. lia.
Qed.

Lemma length_drop (n : nat) (s : string) :
  String.length (Str.drop n s) = (String.length s - n)%nat.
Proof. revert s. induction n as [|n IH]; intros [|a s]; simpl; auto. Qed.

Lemma has_char_append (c : ascii) (s t : string) :
  has_char c (s ++ t) = has_char c s || has_char c t.
Proof.
  induction s as [|a s IH]; [done|].
  rewrite append_cons. simpl. by rewrite IH, orb_assoc.
Qed.

(** [rfind] walks the whole string and remembers the last hit. *)
Lemma rfind_from_append (c : ascii) (s t : string) (i last : Z) :
  Str.rfind_from c (s ++ t) i last
  = Str.rfind_from c t (i + Str.len s) (Str.rfind_from c s i last).
Proof.
  revert i last. induction s as [|a s IH]; intros i last.
  - rewrite append_nil_l. simpl. f_equal. unfold Str.len. simpl. lia.
  - rewrite append_cons. simpl. rewrite IH. f_equal.
    unfold Str.len. simpl String.length. lia.
Qed.

Lemma rfind_from_absent (c : ascii) (s : string) (i last : Z) :
  has_char c s = false → Str.rfind_from c s i last = last.
Proof.
  revert i last. induction s as [|a s IH]; intros i last Hc; simpl in *; [done|].
  apply orb_false_iff in Hc as [Ha Hs]. by rewrite IH, Ha.
Qed.

Lemma rfind_from_range (c : ascii) (s : string) (i last : Z) :
  Str.rfind_from c s i last = last
  ∨ i ≤ Str.rfind_from c s i last < i + Str.len s.
Proof.
  revert i last. induction s as [|a s IH]; intros i last; simpl; [by left|].
  assert (Str.len (String a s) = 1 + Str.len s) as ->
    by (unfold Str.len; simpl String.length; lia).
  pose proof (len_nonneg s).
  destruct (IH (i + 1) (if Ascii.eqb a c then i else last)) as [->|?];
    [|right; lia].
  destruct (Ascii.eqb a c); [right; lia|by left].
Qed.

Lemma rfind_range (c : ascii) (s : string) :
  -1 ≤ Str.rfind c s < Str.len s.
Proof.
  unfold Str.rfind. pose proof (len_nonneg s).
  destruct (rfind_from_range c s 0 (-1)) as [->|?]; lia.
Qed.

(** The last occurrence: [rfind] of [pre ++ c ++ rest] is the length of
    [pre] when [c] does not occur in [rest]. *)
Lemma rfind_last (c : ascii) (pre rest : string) :
  has_char c rest = false →
  Str.rfind c (pre ++ String c rest) = Str.len pre.
Proof.
  intros Hrest. unfold Str.rfind. rewrite rfind_from_append. simpl.
  rewrite Ascii.eqb_refl. rewrite rfind_from_absent by done. lia.
Qed.

Lemma rfind_append_absent (c : ascii) (s t : string) :
  has_char c t = false → Str.rfind c (s ++ t) = Str.rfind c s.
Proof.
  intros Ht. unfold Str.rfind. rewrite rfind_from_append.
  by apply rfind_from_absent.
Qed.

(** What [rfind] finds: nothing, or the place after which [c] no longer
    occurs. *)
Lemma rfind_from_spec (c : ascii) (s : string) (i last : Z) :
  (has_char c s = false ∧ Str.rfind_from c s i last = last)
  ∨ ∃ pre rest, s = pre ++ String c rest ∧ has_char c rest = false
      ∧ Str.rfind_from c s i last = i + Str.len pre.
Proof.
  revert i last. induction s as [|a s IH]; intros i last; simpl; [by left|].
  destruct (IH (i + 1) (if Ascii.eqb a c then i else last))
    as [[Hs Hr]|(pre & rest & -> & Hrest & Hr)].
  - destruct (Ascii.eqb_spec a c) as [->|Hne].
    + right. exists "", s. rewrite Hr. split_and!; [done..|].
      unfold Str.len. simpl. lia.
    + left. by rewrite Hs, Hr.
  - right. exists (String a pre), rest. rewrite Hr. split_and!; [done..|].
    unfold Str.len. simpl String.length. lia.
Qed.

Lemma rfind_spec (c : ascii) (s : string) :
  (has_char c s = false ∧ Str.rfind c s = -1)
  ∨ ∃ pre rest, s = pre ++ String c rest ∧ has_char c rest = false
      ∧ Str.rfind c s = Str.len pre.
Proof.
  unfold Str.rfind.
  destruct (rfind_from_spec c s 0 (-1)) as [?|(pre & rest & ? & ? & ->)];
    [by left|right].
  exists pre, rest. split_and!; [done..|lia].
Qed.

(** ** [splitext] *)

Lemma rfind_lt_len_nat (c : ascii) (s : string) :
  (Z.to_nat (Str.rfind c s + 1) ≤ String.length s)%nat.
Proof. pose proof (rfind_range c s). unfold Str.len in *. lia. Qed.

(** The text [splitext] looks at for a character other than the dot is
    the last component of the part before the last dot. *)
Lemma splitext_at_dot (root rest : string) :
  has_char "." rest = false →
  has_char "/" rest = false →
  posixpath.splitext (root ++ String "." rest)
  = if posixpath.has_non_dot (posixpath.basename root)
    then (root, String "." rest)
    else (root ++ String "." rest, "").
Proof.
  intros Hdot Hsep. unfold posixpath.splitext, posixpath.basename.
  unfold posixpath.extsep, posixpath.sep.
  rewrite (rfind_last "." root rest Hdot).
  assert (Str.rfind "/" (root ++ String "." rest) = Str.rfind "/" root) as ->.
  { apply rfind_append_absent. simpl. by rewrite Hsep. }
  pose proof (rfind_range "/" root) as Hr.
  destruct (Z.gtb_spec (Str.len root) (Str.rfind "/" root)); [|lia].
  cbn [andb].
  rewrite drop_append_le by apply rfind_lt_len_nat.
  assert (Z.to_nat (Str.len root - (Str.rfind "/" root + 1))
          = String.length (Str.drop (Z.to_nat (Str.rfind "/" root + 1)) root))
    as ->.
  { rewrite length_drop. unfold Str.len in *. lia. }
  rewrite take_append.
  unfold Str.len. rewrite Nat2Z.id, take_append, drop_append. done.
Qed.

(** [splitext] either finds no extension and returns the path whole, or
    cuts it at its last dot. *)
Lemma splitext_cases (p : string) :
  posixpath.splitext p = (p, "")
  ∨ ∃ root rest,
      p = root ++ String "." rest
      ∧ has_char "." rest = false
      ∧ has_char "/" rest = false
      ∧ plain_stem root
      ∧ posixpath.splitext p = (root, String "." rest).
Proof.
  destruct (rfind_spec "." p) as [[Hno Hr]|(root & rest & -> & Hrest & Hr)].
  - left. unfold posixpath.splitext, posixpath.extsep. rewrite Hr.
    pose proof (rfind_range posixpath.sep p).
    by destruct (Z.gtb_spec (-1) (Str.rfind posixpath.sep p)); [lia|].
  - destruct (has_char "/" rest) eqn:Hsep.
    + left. unfold posixpath.splitext, posixpath.extsep, posixpath.sep.
      rewrite Hr.
      destruct (rfind_spec "/" (root ++ String "." rest))
        as [[Hno _]|(pre & post & Heq & Hpost & ->)].
      { rewrite has_char_append in Hno. simpl in Hno.
        rewrite Hsep in Hno. by rewrite orb_true_r in Hno. }
      assert (Str.len root < Str.len pre) as Hlt.
      { destruct (Z.lt_ge_cases (Str.len root) (Str.len pre)); [done|].
        exfalso.
        assert (has_char "/" rest = false); [|congruence].
        clear Hr Hsep Hrest. revert root Heq H.
        induction pre as [|a pre IH]; intros [|b root] Heq Hlen.
        - rewrite !append_nil_l in Heq. discriminate Heq.
        - rewrite append_nil_l, append_cons in Heq.
          injection Heq as -> Heq. rewrite <- Heq in Hpost.
          rewrite has_char_append in Hpost. simpl in Hpost.
          by apply orb_false_iff in Hpost as [_ ?].
        - unfold Str.len in Hlen. simpl in Hlen. lia.
        - rewrite !append_cons in Heq. injection Heq as _ Heq.
          apply (IH root Heq).
          unfold Str.len in *. simpl String.length in Hlen. lia. }
      by destruct (Z.gtb_spec (Str.len root) (Str.len pre)); [lia|].
    + rewrite splitext_at_dot by done.
      destruct (posixpath.has_non_dot (posixpath.basename root)) eqn:Hplain;
        [right|by left].
      exists root, rest. by split_and!.
Qed.

(** The two parts of [splitext] put together give the path back. *)
Theorem splitext_round_trip (p : string) :
  fst (posixpath.splitext p) ++ snd (posixpath.splitext p) = p.
Proof.
  destruct (splitext_cases p) as [->|(root & rest & Hp & _ & _ & _ & ->)].
  - apply append_nil_r.
  - by rewrite Hp.
Qed.

(** The extension [splitext] returns is empty, or a dot followed by
    characters among which there is neither a dot nor a separator; and
    when it is not empty, the root it goes with has a last component that
    is not made of dots alone. *)
Theorem splitext_extension (p : string) :
  is_extension (snd (posixpath.splitext p))
  ∧ (snd (posixpath.splitext p) ≠ "" → plain_stem (fst (posixpath.splitext p))).
Proof.
  destruct (splitext_cases p) as [->|(root & rest & _ & ? & ? & ? & ->)].
  - split; [by left|done].
  - split; [right; by exists rest|done].
Qed.

(** Conversely [splitext] takes off again an extension that was put on a
    stem whose last component is not made of dots alone. *)
Theorem splitext_append_extension (base ext : string) :
  is_extension ext → ext ≠ "" → plain_stem base →
  posixpath.splitext (base ++ ext) = (base, ext).
Proof.
  intros [->|(rest & -> & Hdot & Hsep)] Hne Hplain; [done|].
  rewrite splitext_at_dot by done. by rewrite Hplain.
Qed.

(** ** [basename] and [join] *)

Lemma last_char_has (c : ascii) (s : string) :
  Str.last_char s = Some c → has_char c s = true.
Proof.
  induction s as [|a s IH]; [done|]. simpl. destruct s as [|b s].
  - intros [= ->]. by rewrite Ascii.eqb_refl.
  - intros Hl. rewrite (IH Hl). apply orb_true_r.
Qed.

Lemma last_char_append (pre : string) (c : ascii) (rest : string) :
  Str.last_char (pre ++ String c rest) = Str.last_char (String c rest).
Proof.
  induction pre as [|a pre IH]; [done|].
  rewrite append_cons. cbn [Str.last_char]. rewrite IH.
  destruct (pre ++ String c rest) eqn:Heq; [by destruct pre|done].
Qed.

Lemma rfind_endswith (c : ascii) (s : string) :
  Str.endswith_char s c = true → Str.rfind c s = Str.len s - 1.
Proof.
  unfold Str.endswith_char. intros Hend.
  destruct (Str.last_char s) as [a|] eqn:Hlast; [|done].
  apply Ascii.eqb_eq in Hend as ->.
  destruct (rfind_spec c s) as [[Hno _]|(pre & rest & -> & Hrest & ->)].
  - apply last_char_has in Hlast. congruence.
  - rewrite last_char_append in Hlast. destruct rest as [|b rest].
    + rewrite len_append. unfold Str.len. simpl. lia.
    + apply (last_char_has c (String b rest)) in Hlast. congruence.
Qed.

Lemma basename_no_sep (s : string) :
  has_char "/" s = false → posixpath.basename s = s.
Proof.
  intros Hs. unfold posixpath.basename, posixpath.sep.
  destruct (rfind_spec "/" s) as [[_ ->]|(pre & rest & -> & _ & _)]; [done|].
  rewrite has_char_append in Hs. simpl in Hs. by rewrite orb_true_r in Hs.
Qed.

(** The last component of [join(a, b)] is [b] when [b] is a single
    component. *)
Lemma basename_join (a b : string) :
  has_char "/" b = false → posixpath.basename (posixpath.join a b) = b.
Proof.
  intros Hb. unfold posixpath.join.
  assert (Str.startswith b "/" = false) as ->.
  { destruct b as [|x b]; [done|]. simpl in Hb.
    apply orb_false_iff in Hb as [Hx _].
    unfold Str.startswith. cbn [String.prefix].
    destruct (ascii_dec "/" x) as [<-|?]; [|done].
    by rewrite Ascii.eqb_refl in Hx. }
  unfold posixpath.basename, posixpath.sep.
  destruct (String.eqb_spec a "") as [->|Ha]; cbn [orb].
  - rewrite append_nil_l. by apply basename_no_sep.
  - destruct (Str.endswith_char a "/") eqn:Hend.
    + rewrite rfind_append_absent by done.
      rewrite (rfind_endswith _ _ Hend).
      replace (Z.to_nat (Str.len a - 1 + 1)) with (String.length a)
        by (unfold Str.len; lia).
      apply drop_append.
    + change ("/" ++ b) with (String "/" b).
      rewrite (rfind_last "/" a b Hb).
      replace (Z.to_nat (Str.len a + 1)) with (S (String.length a))
        by (unfold Str.len; lia).
      clear. induction a as [|x a IH]; [done|]. by rewrite append_cons.
Qed.

(** ** The extension across a rename *)

(** X1: when the file has an extension and the new name is a single
    component whose stem is not made of dots alone, the renamed file
    carries the stem of the new name and the extension of the old file:
    [splitext] of its name gives exactly the two back. *)
Theorem rename_keeps_extension (old_path new_name : string) :
  snd (posixpath.splitext (posixpath.basename old_path)) ≠ "" →
  has_char "/" new_name = false →
  posixpath.has_non_dot (fst (posixpath.splitext new_name)) = true →
  posixpath.splitext
    (posixpath.basename (LibraryBrowser.new_path_of old_path new_name))
  = (fst (posixpath.splitext new_name),
     snd (posixpath.splitext (posixpath.basename old_path))).
Proof.
  intros Hext Hsep Hstem.
  pose proof (splitext_round_trip new_name) as Hnew.
  assert (has_char "/" (fst (posixpath.splitext new_name)) = false) as Hbase.
  { rewrite <- Hnew, has_char_append in Hsep.
    by apply orb_false_iff in Hsep as [? _]. }
  destruct (splitext_extension (posixpath.basename old_path)) as [Hshape _].
  assert (has_char "/" (snd (posixpath.splitext (posixpath.basename old_path)))
          = false) as Hold.
  { destruct Hshape as [->|(rest & -> & _ & Hrest)]; [done|]. simpl.
    by rewrite Hrest. }
  unfold LibraryBrowser.new_path_of.
  rewrite basename_join
    by (unfold LibraryBrowser.new_filename_of;
        by rewrite has_char_append, Hbase, Hold).
  unfold LibraryBrowser.new_filename_of.
  apply splitext_append_extension; [done..|].
  unfold plain_stem. by rewrite basename_no_sep.
Qed.

(** ** The catalog scan *)

Section scan_facts.
Context {FS : Type} `{OS FS}.
Import LibraryBrowser.

Lemma video_subtitle_disjoint (ext : string) :
  ext ∈ video_extensions → ext ∈ subtitle_extensions → False.
Proof.
  unfold video_extensions, subtitle_extensions.
  rewrite !elem_of_list_to_set, !elem_of_cons, !elem_of_nil.
  intros Hv Hs.
  repeat (destruct Hv as [->|Hv]);
    try (repeat (destruct Hs as [Hs|Hs]); done).
Qed.

Lemma supported_nonempty (filename : string) :
  supported filename = true → filename ≠ "".
Proof. intros Hs ->. by vm_compute in Hs. Qed.

Lemma join_nonempty (a b : string) : b ≠ "" → posixpath.join a b ≠ "".
Proof.
  intros Hb. unfold posixpath.join.
  destruct (Str.startswith b "/"); [done|].
  destruct (_ || _).
  - destruct a; [by rewrite append_nil_l|by rewrite append_cons].
  - destruct a; [by rewrite append_nil_l|by rewrite append_cons].
Qed.

(** One turn of the inner loop: an unsupported name is skipped; a
    supported one is appended when its path can be read, and otherwise
    the turn raises and leaves [files] as it was. *)
Lemma scan_file_run (self : t) (fs : FS) (root name : string)
    (files : list FileRecord) :
  if supported name then
    match os_stat fs (posixpath.join root name) with
    | Return st =>
        ∃ f, scan_file self fs root name files = (Return tt, (files ++ [f])%list)
          ∧ filename f = name
          ∧ full_path f = posixpath.join root name
          ∧ describes self fs f ∧ classified f
    | Raise e => scan_file self fs root name files = (Raise e, files)
    end
  else scan_file self fs root name files = (Return tt, files).
Proof.
  unfold scan_file, supported.
  destruct (bool_decide (_ ∈ supported_extensions)) eqn:Hsup; [|done].
  apply bool_decide_eq_true_1 in Hsup.
  assert (posixpath.join root name ≠ "") as Hne.
  { apply join_nonempty, supported_nonempty.
    unfold supported. by apply bool_decide_eq_true_2. }
  destruct (relpath_returns fs _ (library_path self) Hne) as [r Hrelpath].
  unfold lift, modify, mbind, M_bind, bind. rewrite Hrelpath.
  unfold os_path.getsize, os_path.getmtime.
  destruct (os_stat fs (posixpath.join root name)) as [[sz mt]|e] eqn:Hstat;
    [|done].
  simpl. eexists. split; [reflexivity|]. simpl.
  split; [done|]. split; [done|]. split.
  - unfold describes. simpl. by rewrite Hstat, Hrelpath.
  - unfold classified. simpl. rewrite !bool_decide_eq_true.
    split_and!; try done.
    intros [Hv Hs]. by apply (video_subtitle_disjoint _ Hv Hs).
Qed.

(** The inner loop: it appends the records of the supported names, in
    order, and stops at the first one that cannot be read. *)
Lemma scan_names_run (self : t) (fs : FS) (root : string) (names : list string)
    (files : list FileRecord) :
  ∃ found,
    snd (for_each names (scan_file self fs root) files) = (files ++ found)%list
    ∧ Forall (λ f, describes self fs f ∧ classified f) found
    ∧ scanned_up_to fs (names_candidates root names) found
        (raised (fst (for_each names (scan_file self fs root) files))).
Proof.
  revert files. induction names as [|name names IH]; intros files.
  - exists []. simpl. rewrite app_nil_r. split; [done|]. split; [done|].
    by exists [], [].
  - cbn [for_each]. unfold bind.
    pose proof (scan_file_run self fs root name files) as Hstep.
    unfold names_candidates in *. cbn [List.filter].
    destruct (supported name) eqn:Hsup.
    + destruct (os_stat fs (posixpath.join root name)) as [st|e] eqn:Hstat.
      * destruct Hstep as (f & -> & Hname & Hpath & Hdesc & Hclass).
        cbv beta iota.
        destruct (IH (files ++ [f])%list)
          as (found & Hsnd & Hall & before & after & Hcands & Hread & Hmap & Hstop).
        exists (f :: found). rewrite Hsnd, <- app_assoc.
        split; [done|]. split; [constructor; [by split|done]|].
        exists ((root, name) :: before), after. cbn [map].
        rewrite Hcands. split; [done|]. split.
        { constructor; [|done]. by exists st. }
        split; [|done]. rewrite Hmap. f_equal.
        unfold record_entry, candidate_entry, candidate_path. simpl.
        by rewrite Hname, Hpath.
      * rewrite Hstep. cbv beta iota. exists []. simpl. rewrite app_nil_r.
        split; [done|]. split; [constructor|].
        exists [], ((root, name) :: map (pair root) (List.filter supported names)).
        split; [done|]. split; [constructor|]. split; [done|].
        do 2 eexists. split; [reflexivity|].
        intros [st Hst]. unfold candidate_path in Hst. simpl in Hst. congruence.
    + rewrite Hstep. cbv beta iota. apply IH.
Qed.

(** The outer loop, over what [os.walk] yields. *)
Lemma scan_walk_run (self : t) (fs : FS)
    (walk : list (string * list string * list string))
    (files : list FileRecord) :
  let loop :=
    for_each walk
      (λ '(root, dirs, filenames), for_each filenames (scan_file self fs root)) in
  let cands :=
    flat_map (λ '(root, _, filenames), names_candidates root filenames) walk in
  ∃ found stopped,
    snd (loop files) = (files ++ found)%list
    ∧ Forall (λ f, describes self fs f ∧ classified f) found
    ∧ scanned_up_to fs cands found stopped.
Proof.
  cbv zeta. revert files.
  induction walk as [|[[root dirs] names] walk IH]; intros files.
  - exists [], false. simpl. rewrite app_nil_r. split; [done|].
    split; [constructor|]. by exists [], [].
  - cbn [for_each flat_map]. unfold bind.
    destruct (scan_names_run self fs root names files)
      as (found1 & Hsnd1 & Hall1 & before1 & after1 & Hc1 & Hr1 & Hm1 & Hs1).
    destruct (for_each names (scan_file self fs root) files) as [[[]|e] files1];
      simpl in Hsnd1, Hs1; subst files1.
    + destruct (IH (files ++ found1)%list)
        as (found2 & stopped & Hsnd2 & Hall2 & before2 & after2
            & Hc2 & Hr2 & Hm2 & Hs2).
      exists (found1 ++ found2)%list, stopped. rewrite Hsnd2, <- app_assoc.
      split; [done|]. split; [by apply Forall_app|].
      exists (before1 ++ before2)%list, after2.
      rewrite Hc1, Hs1, Hc2, app_nil_r, <- app_assoc.
      split; [done|]. split; [by apply Forall_app|].
      split; [|done]. by rewrite !map_app, Hm1, Hm2.
    + exists found1, true. simpl. split; [done|]. split; [done|].
      destruct Hs1 as (c & after' & -> & Hbad).
      exists before1, (c :: after' ++ flat_map
        (λ '(root, _, filenames), names_candidates root filenames) walk)%list.
      rewrite Hc1, <- app_assoc. split; [done|]. split; [done|].
      split; [done|]. eauto.
Qed.

Lemma try_except_pass {S A} (m : M S A) (a : A) (s : S) :
  snd (try_except m (λ _, mret a) s) = snd (m s).
Proof. unfold try_except. by destruct (m s) as [[?|?] ?]. Qed.

(** The scan as a whole. *)
Lemma scan_run (self : t) (fs : FS) :
  os_path.exists_ fs (library_path self) = true →
  Forall (λ f, describes self fs f ∧ classified f) (_get_all_files self fs)
  ∧ ∃ stopped, scanned_up_to fs (candidates self fs) (_get_all_files self fs) stopped.
Proof.
  intros Hex. unfold _get_all_files. rewrite Hex. cbn [negb].
  rewrite try_except_pass.
  destruct (scan_walk_run self fs (os_walk fs (library_path self)) [])
    as (found & stopped & Hsnd & Hall & Hrun).
  rewrite Hsnd. simpl. eauto.
Qed.

(** X2: every record of the catalog is classified by the lowered extension of
    its name: the extension is one of the supported ones, [is_video] and
    [is_subtitle] say in which set it lies, and no record is both. *)
Theorem scan_records_classified (self : t) (fs : FS) :
  Forall classified (_get_all_files self fs).
Proof.
  destruct (os_path.exists_ fs (library_path self)) eqn:Hex.
  - destruct (scan_run self fs Hex) as [Hall _].
    eapply Forall_impl; [exact Hall|]. by intros f [_ ?].
  - unfold _get_all_files. rewrite Hex. constructor.
Qed.

(** X3: every record of the catalog carries what the file system says of its
    file: [size] and [modified] are those [os.stat] gives for [full_path],
    [relative_path] is [full_path] relative to the library path, and
    [directory] is the directory part of [relative_path]. *)
Theorem scan_records_described (self : t) (fs : FS) :
  Forall (describes self fs) (_get_all_files self fs).
Proof.
  destruct (os_path.exists_ fs (library_path self)) eqn:Hex.
  - destruct (scan_run self fs Hex) as [Hall _].
    eapply Forall_impl; [exact Hall|]. by intros f [? _].
  - unfold _get_all_files. rewrite Hex. constructor.
Qed.

(** X4: the catalog follows the walk and keeps what it has when a file fails:
    over an existing library path its records are, in order, the
    supported files the walk offers, either all of them or those before
    the first one that [os.stat] cannot read. *)
Theorem scan_up_to_first_unreadable (self : t) (fs : FS) :
  os_path.exists_ fs (library_path self) = true →
  ∃ before after,
    candidates self fs = (before ++ after)%list
    ∧ Forall (readable fs) before
    ∧ map record_entry (_get_all_files self fs) = map candidate_entry before
    ∧ (after = [] ∨ ∃ c after', after = c :: after' ∧ ¬ readable fs c).
Proof.
  intros Hex.
  destruct (scan_run self fs Hex)
    as (_ & stopped & before & after & Hc & Hr & Hm & Hs).
  exists before, after. split_and!; [done..|].
  destruct stopped; [by right|by left].
Qed.

(** X5: when the library path exists and every supported file of the walk can
    be read, the catalog has them all. *)
Theorem scan_complete (self : t) (fs : FS) :
  os_path.exists_ fs (library_path self) = true →
  (∀ c, c ∈ candidates self fs → readable fs c) →
  map record_entry (_get_all_files self fs)
  = map candidate_entry (candidates self fs).
Proof.
  intros Hex Hread.
  destruct (scan_run self fs Hex)
    as (_ & stopped & before & after & Hc & _ & Hm & Hs).
  destruct stopped as [|]; [destruct Hs as (c & after' & -> & Hbad)|subst after].
  - exfalso. apply Hbad, Hread. rewrite Hc. apply elem_of_app. right. by left.
  - by rewrite Hm, Hc, app_nil_r.
Qed.
End scan_facts.

(** ** The search filter *)

Lemma prefix_spec (a s : string) :
  String.prefix a s = true ↔ ∃ post, s = a ++ post.
Proof.
  revert s. induction a as [|x a IH]; intros s.
  - destruct s; simpl; split; eauto.
  - destruct s as [|y s]; cbn [String.prefix].
    + split; [done|]. intros [post Hp]. by rewrite append_cons in Hp.
    + destruct (ascii_dec x y) as [->|Hne].
      * rewrite IH. split; intros [post Hp]; exists post.
        -- by rewrite append_cons, <- Hp.
        -- rewrite append_cons in Hp. by injection Hp.
      * split; [done|]. intros [post Hp]. rewrite append_cons in Hp.
        by injection Hp as -> _.
Qed.

(** [sub in s] holds exactly when [s] is some text, [sub], some text. *)
Lemma contains_spec (sub s : string) :
  Str.contains sub s = true ↔ is_substring sub s.
Proof.
  unfold is_substring. induction s as [|y s IH]; cbn [Str.contains].
  - rewrite orb_false_r, prefix_spec. split.
    + intros [post Hp]. by exists "", post.
    + intros (pre & post & Hp). destruct pre; [by exists post|].
      by rewrite append_cons in Hp.
  - rewrite orb_true_iff, prefix_spec, IH. split.
    + intros [[post ->]|(pre & post & ->)].
      * by exists "", post.
      * by exists (String y pre), post.
    + intros (pre & post & Hp). destruct pre as [|x pre].
      * left. by exists post.
      * right. rewrite append_cons in Hp. injection Hp as -> ->.
        by exists pre, post.
Qed.

Lemma lower_char_idem (a : ascii) :
  Str.lower_char (Str.lower_char a) = Str.lower_char a.
Proof. by destruct a as [[] [] [] [] [] [] [] []]; vm_compute. Qed.

Lemma lower_idem (s : string) : Str.lower (Str.lower s) = Str.lower s.
Proof.
  induction s as [|a s IH]; [done|]. simpl. by rewrite lower_char_idem, IH.
Qed.

Lemma lower_empty (s : string) : Str.lower s = "" → s = "".
Proof. by destruct s. Qed.

Section search_facts.
Context {FS : Type} `{OS FS}.
Import LibraryBrowser.

Lemma matches_spec (term : string) (f : FileRecord) :
  matches (Str.lower term) f = true ↔ mentions term f.
Proof.
  unfold matches, mentions. by rewrite orb_true_iff, !contains_spec.
Qed.

Lemma filter_sublist {A} (p : A → bool) (l : list A) :
  List.filter p l `sublist_of` l.
Proof.
  induction l as [|x l IH]; simpl; [done|].
  destruct (p x); by constructor.
Qed.

(** X6: with a search term the filtered set holds exactly the records of the
    catalog in whose name or relative path the term occurs, letter case
    apart; without one (no term, or the empty term) it is the catalog;
    and in both cases the records keep the order of the catalog. *)
Theorem search_selects (self : t) (fs : FS) (search : option string) :
  filtered self fs search `sublist_of` _get_all_files self fs
  ∧ (search = None ∨ search = Some "" →
     filtered self fs search = _get_all_files self fs)
  ∧ (∀ term f, search = Some term → term ≠ "" →
       f ∈ filtered self fs search
       ↔ f ∈ _get_all_files self fs ∧ mentions term f).
Proof.
  unfold filtered, filter_search. split_and!.
  - destruct search as [s|]; [|done].
    destruct (String.eqb s ""); [done|apply filter_sublist].
  - by intros [->| ->].
  - intros term f -> Hne. apply String.eqb_neq in Hne. rewrite Hne.
    rewrite !list_elem_of_In, filter_In, matches_spec. done.
Qed.

(** X7: the letter case of the search term does not matter: two terms that
    differ in case alone select the same records. *)
Theorem search_ignores_case (term term' : string) (l : list FileRecord) :
  Str.lower term = Str.lower term' →
  filter_search (Some term) l = filter_search (Some term') l.
Proof.
  intros Heq. unfold filter_search.
  destruct (String.eqb_spec term "") as [->|Hne].
  - symmetry in Heq. simpl in Heq. apply lower_empty in Heq. by subst.
  - destruct (String.eqb_spec term' "") as [->|Hne'].
    + simpl in Heq. by apply lower_empty in Heq.
    + by rewrite Heq.
Qed.
End search_facts.

(** ** Order and stability of the sort *)

Section stable_sort_facts.
Context {A K : Type} (lt : K → K → bool) (key : A → K).
Hypothesis lt_asym : ∀ a b, lt a b = true → lt b a = false.
Hypothesis le_trans :
  ∀ a b c, lt b a = false → lt c b = false → lt c a = false.

Lemma insert_sorted_ordered (x : A) (l : list A) :
  StronglySorted (key_le lt key) l →
  StronglySorted (key_le lt key) (insert_sorted lt key x l).
Proof using lt_asym le_trans.
  induction 1 as [|y l Hl IH Hy]; simpl.
  - repeat constructor.
  - destruct (lt (key y) (key x)) eqn:Hyx.
    + constructor; [done|].
      eapply Permutation_Forall; [symmetry; apply insert_sorted_perm|].
      constructor; [|done]. unfold key_le. by apply lt_asym.
    + constructor; [by constructor|].
      constructor; [done|].
      eapply Forall_impl; [exact Hy|]. unfold key_le. intros z Hz.
      by apply (le_trans _ (key y)).
Qed.

Lemma stable_sort_ordered (l : list A) :
  StronglySorted (key_le lt key) (stable_sort lt key l).
Proof using lt_asym le_trans.
  induction l as [|x l IH]; simpl; [constructor|].
  by apply insert_sorted_ordered.
Qed.

Lemma sorted_snoc (R : A → A → Prop) (l : list A) (x : A) :
  StronglySorted R l → Forall (λ y, R y x) l → StronglySorted R (l ++ [x])%list.
Proof.
  induction 1 as [|y l Hl IH Hy]; intros Hx; simpl.
  - repeat constructor.
  - apply Forall_cons in Hx as [Hyx Hx].
    constructor; [by apply IH|]. apply Forall_app. split; [done|].
    by repeat constructor.
Qed.

Lemma sorted_rev (R : A → A → Prop) (l : list A) :
  StronglySorted R l → StronglySorted (flip R) (rev l).
Proof.
  induction 1 as [|y l Hl IH Hy]; simpl; [constructor|].
  apply sorted_snoc; [done|]. by rewrite <- Permutation_rev.
Qed.

Lemma list_sort_ordered (reverse : bool) (l : list A) :
  StronglySorted (if reverse then flip (key_le lt key) else key_le lt key)
    (list_sort lt key reverse l).
Proof using lt_asym le_trans.
  destruct reverse; simpl; [apply sorted_rev|]; apply stable_sort_ordered.
Qed.

Lemma key_tied_order (z x y : A) :
  key_tied lt key z x = true → key_tied lt key z y = true →
  lt (key y) (key x) = false.
Proof using le_trans.
  unfold key_tied. rewrite !andb_true_iff, !negb_true_iff.
  intros [Hzx Hxz] [Hzy Hyz]. by apply (le_trans _ (key z)).
Qed.

Lemma insert_sorted_tied (z x : A) (l : list A) :
  List.filter (key_tied lt key z) (insert_sorted lt key x l)
  = List.filter (key_tied lt key z) (x :: l).
Proof using le_trans.
  induction l as [|y l IH]; [done|]. cbn [insert_sorted].
  destruct (lt (key y) (key x)) eqn:Hyx; [|done].
  cbn [List.filter] in *. rewrite IH.
  destruct (key_tied lt key z x) eqn:Hx, (key_tied lt key z y) eqn:Hy; try done.
  pose proof (key_tied_order z x y Hx Hy). congruence.
Qed.

Lemma stable_sort_tied (z : A) (l : list A) :
  List.filter (key_tied lt key z) (stable_sort lt key l)
  = List.filter (key_tied lt key z) l.
Proof using le_trans.
  induction l as [|x l IH]; [done|]. cbn [stable_sort].
  rewrite insert_sorted_tied. cbn [List.filter]. by rewrite IH.
Qed.

Lemma filter_rev (p : A → bool) (l : list A) :
  List.filter p (rev l) = rev (List.filter p l).
Proof.
  induction l as [|x l IH]; [done|]. simpl.
  rewrite List.filter_app, IH. simpl. destruct (p x); simpl; [done|].
  by rewrite app_nil_r.
Qed.

Lemma list_sort_tied (reverse : bool) (z : A) (l : list A) :
  List.filter (key_tied lt key z) (list_sort lt key reverse l)
  = List.filter (key_tied lt key z) l.
Proof using le_trans.
  destruct reverse; simpl; [|apply stable_sort_tied].
  by rewrite filter_rev, stable_sort_tied, filter_rev, rev_involutive.
Qed.
End stable_sort_facts.

Lemma sorted_impl {A} (R R' : A → A → Prop) (l : list A) :
  (∀ x y, R x y → R' x y) → StronglySorted R l → StronglySorted R' l.
Proof.
  intros HR. induction 1 as [|y l Hl IH Hy]; constructor; [done|].
  eapply Forall_impl; [exact Hy|]. intros z. apply HR.
Qed.

(** The three comparisons of [sort_files]. *)
Lemma Z_ltb_asym (a b : Z) : (a <? b) = true → (b <? a) = false.
Proof. lia. Qed.

Lemma Z_le_trans (a b c : Z) : (b <? a) = false → (c <? b) = false → (c <? a) = false.
Proof. lia. Qed.

Lemma Q_ltb_false (a b : Q) : Q_ltb b a = false ↔ (a <= b)%Q.
Proof.
  unfold Q_ltb. rewrite negb_false_iff. apply Qle_bool_iff.
Qed.

Lemma Q_ltb_asym (a b : Q) : Q_ltb a b = true → Q_ltb b a = false.
Proof.
  unfold Q_ltb. rewrite negb_true_iff, negb_false_iff, Qle_bool_iff.
  intros Hba. destruct (Qle_bool b a) eqn:Hle; [done|].
  destruct (Qlt_le_dec b a) as [Hlt|Hle'].
  - apply Qlt_le_weak, Qle_bool_iff in Hlt. congruence.
  - done.
Qed.

Lemma Q_le_trans (a b c : Q) :
  Q_ltb b a = false → Q_ltb c b = false → Q_ltb c a = false.
Proof. rewrite !Q_ltb_false. apply Qle_trans. Qed.

Lemma string_ltb_false (a b : string) :
  String.ltb b a = false ↔ String.leb a b = true.
Proof.
  unfold String.ltb, String.leb. rewrite (String.compare_antisym a b).
  by destruct (String.compare b a).
Qed.

Lemma string_ltb_asym (a b : string) :
  String.ltb a b = true → String.ltb b a = false.
Proof.
  unfold String.ltb. rewrite (String.compare_antisym b a).
  by destruct (String.compare a b).
Qed.

Lemma string_le_trans (a b c : string) :
  String.ltb b a = false → String.ltb c b = false → String.ltb c a = false.
Proof.
  rewrite !string_ltb_false. intros Hab Hbc.
  apply Is_true_true. apply Is_true_true in Hab, Hbc.
  exact (transitivity (R := String.le) Hab Hbc).
Qed.

Section sort_files_facts.
Import LibraryBrowser.

Lemma sort_files_sorted (sort_by sort_order : string) (l : list FileRecord) :
  StronglySorted
    (if String.eqb sort_order "desc" then flip (file_le sort_by)
     else file_le sort_by)
    (sort_files sort_by sort_order l).
Proof.
  unfold sort_files, file_le.
  destruct (String.eqb sort_by "filename");
    [|destruct (String.eqb sort_by "size")].
  - pose proof (list_sort_ordered String.ltb (λ x, Str.lower (filename x))
                  string_ltb_asym string_le_trans
                  (String.eqb sort_order "desc") l) as Hs.
    destruct (String.eqb sort_order "desc");
      (eapply sorted_impl; [|exact Hs]);
      unfold flip, key_le; intros x y; apply string_ltb_false.
  - pose proof (list_sort_ordered Z.ltb size Z_ltb_asym Z_le_trans
                  (String.eqb sort_order "desc") l) as Hs.
    destruct (String.eqb sort_order "desc");
      (eapply sorted_impl; [|exact Hs]);
      unfold flip, key_le; intros x y; lia.
  - pose proof (list_sort_ordered Q_ltb modified Q_ltb_asym Q_le_trans
                  (String.eqb sort_order "desc") l) as Hs.
    destruct (String.eqb sort_order "desc");
      (eapply sorted_impl; [|exact Hs]);
      unfold flip, key_le; intros x y; apply Q_ltb_false.
Qed.

(** X8: sorting rearranges the list, losing and adding nothing, into the
    order asked for: ascending in the sort key, or descending when
    [sort_order] is ["desc"] (and ascending for every other value).  The
    key is the lower-cased name for ["filename"], the size for ["size"],
    and the modification time for every other [sort_by]. *)
Theorem sort_files_ordered (sort_by sort_order : string) (l : list FileRecord) :
  Permutation (sort_files sort_by sort_order l) l
  ∧ StronglySorted
      (if String.eqb sort_order "desc" then flip (file_le sort_by)
       else file_le sort_by)
      (sort_files sort_by sort_order l).
Proof.
  split.
  - unfold sort_files.
    destruct (String.eqb sort_by "filename"); [apply list_sort_perm|].
    destruct (String.eqb sort_by "size"); apply list_sort_perm.
  - apply sort_files_sorted.
Qed.

Lemma Z_tied (a b : Z) : negb (a <? b) && negb (b <? a) = (a =? b).
Proof.
  destruct (Z.ltb_spec a b), (Z.ltb_spec b a), (Z.eqb_spec a b); simpl; lia.
Qed.

Lemma Q_tied (a b : Q) : negb (Q_ltb a b) && negb (Q_ltb b a) = Qeq_bool a b.
Proof.
  unfold Q_ltb. rewrite !negb_involutive.
  destruct (Qeq_bool a b) eqn:Heq.
  - apply Qeq_bool_iff in Heq.
    apply andb_true_iff. split; apply Qle_bool_iff; rewrite Heq; apply Qle_refl.
  - apply not_true_iff_false. rewrite andb_true_iff, !Qle_bool_iff.
    intros [Hba Hab]. apply not_true_iff_false in Heq. apply Heq.
    apply Qeq_bool_iff. by apply Qle_antisym.
Qed.

Lemma string_tied (a b : string) :
  negb (String.ltb a b) && negb (String.ltb b a) = String.eqb a b.
Proof.
  destruct (String.eqb_spec a b) as [->|Hne].
  - unfold String.ltb.
    assert (String.compare b b = Eq) as ->; [|done].
    pose proof (String.compare_antisym b b) as Hc.
    by destruct (String.compare b b).
  - apply not_true_iff_false. rewrite andb_true_iff, !negb_true_iff.
    rewrite !string_ltb_false. intros [Hba Hab].
    by apply Hne, String.leb_antisym.
Qed.

(** X9: the sort is stable in both directions: the records that the sort key
    does not tell apart from a given one come out in the order they had
    in the list. *)
Theorem sort_files_stable (sort_by sort_order : string) (x : FileRecord)
    (l : list FileRecord) :
  List.filter (file_tied sort_by x) (sort_files sort_by sort_order l)
  = List.filter (file_tied sort_by x) l.
Proof.
  unfold sort_files, file_tied.
  destruct (String.eqb sort_by "filename");
    [|destruct (String.eqb sort_by "size")].
  - etrans; [apply (List.filter_ext _
                      (key_tied String.ltb (λ x, Str.lower (filename x)) x));
             intros y; symmetry; apply string_tied|].
    rewrite list_sort_tied by apply string_le_trans.
    apply List.filter_ext. intros y. apply string_tied.
  - etrans; [apply (List.filter_ext _ (key_tied Z.ltb size x));
             intros y; symmetry; apply Z_tied|].
    rewrite list_sort_tied by apply Z_le_trans.
    apply List.filter_ext. intros y. apply Z_tied.
  - etrans; [apply (List.filter_ext _ (key_tied Q_ltb modified x));
             intros y; symmetry; apply Q_tied|].
    rewrite list_sort_tied by apply Q_le_trans.
    apply List.filter_ext. intros y. apply Q_tied.
Qed.
End sort_files_facts.

(** ** Pages *)

Lemma firstn_add {A} (a k : nat) (l : list A) :
  firstn (a + k) l = (firstn a l ++ firstn k (skipn a l))%list.
Proof.
  revert l. induction a as [|a IH]; intros [|x l]; simpl; try done.
  - by rewrite firstn_nil.
  - by rewrite IH.
Qed.

Lemma firstn_min_length {A} (k : nat) (l : list A) :
  firstn (Nat.min k (length l)) l = firstn k l.
Proof.
  destruct (Nat.le_gt_cases k (length l)).
  - by rewrite Nat.min_l.
  - rewrite Nat.min_r by lia. rewrite firstn_all.
    symmetry. apply firstn_all2. lia.
Qed.

(** A slice between two bounds that are not negative. *)
Lemma slice_nat {A} (l : list A) (a k : nat) :
  slice l (Z.of_nat a) (Z.of_nat a + Z.of_nat k) = firstn k (skipn a l).
Proof.
  unfold slice, slice_index, len.
  destruct (Z.ltb_spec (Z.of_nat a) 0); [lia|].
  destruct (Z.ltb_spec (Z.of_nat a + Z.of_nat k) 0); [lia|].
  destruct (Nat.le_gt_cases (length l) a) as [Hge|Hlt].
  - rewrite (skipn_all2 l Hge), firstn_nil.
    rewrite !Z.min_r by lia.
    replace (Z.to_nat _) with 0%nat by lia.
    by rewrite firstn_O.
  - rewrite (Z.min_l (Z.of_nat a)) by lia. rewrite Nat2Z.id.
    rewrite <- (firstn_min_length k). rewrite length_skipn.
    f_equal. lia.
Qed.

Lemma chunks_concat {A} (k m : nat) (l : list A) :
  concat (map (λ p, firstn k (skipn ((p - 1) * k) l)) (seq 1 m))
  = firstn (m * k) l.
Proof.
  induction m as [|m IH]; [done|].
  rewrite seq_S, map_app, concat_app, IH. simpl.
  rewrite app_nil_r, Nat.sub_0_r.
  replace (k + m * k)%nat with (m * k + k)%nat by lia.
  by rewrite firstn_add.
Qed.

Section page_facts.
Context {FS : Type} `{OS FS}.
Import LibraryBrowser.

(** A query with a positive [per_page], for a page that exists. *)
Lemma query_page (self : t) (fs : FS) (p : nat) (per_page : Z)
    (search : option string) (sort_by sort_order : string) :
  0 < per_page →
  let all_files := sort_files sort_by sort_order (filtered self fs search) in
  let tp := if len all_files >? 0
            then if underflows (len all_files) per_page then 0
                 else - (- len all_files / per_page)
            else 1 in
  (1 ≤ p)%nat → Z.of_nat p ≤ tp →
  ∃ r, get_files_paginated self fs (Z.of_nat p) per_page search sort_by sort_order
       = Return r
    ∧ pagination.total_pages (pagination r) = tp
    ∧ pagination.current_page (pagination r) = Z.of_nat p
    ∧ pagination.has_next (pagination r) = (Z.of_nat p <? tp)
    ∧ files r = firstn (Z.to_nat per_page)
                  (skipn ((p - 1) * Z.to_nat per_page) all_files).
Proof.
  intros Hpp all_files tp Hp1 Hptp.
  unfold get_files_paginated. fold (filtered self fs search). fold all_files.
  assert ((if len all_files >? 0 then ceil_div (len all_files) per_page
           else Return 1) = Return tp) as Hcount.
  { subst tp. destruct (len all_files >? 0); [|done].
    unfold ceil_div. destruct (Z.eqb_spec per_page 0); [lia|].
    by destruct (underflows _ _). }
  destruct (paginate_with all_files (Z.of_nat p) per_page tp Hcount)
    as (r & Hr & Hfiles & Hpag & _).
  exists r. rewrite Hpag, Hfiles. simpl.
  replace (Z.max 1 (Z.min (Z.of_nat p) tp)) with (Z.of_nat p) by lia.
  split_and!; try done.
  rewrite <- (slice_nat all_files).
  rewrite Nat2Z.inj_mul, Z2Nat.id by lia.
  by replace (Z.of_nat (p - 1)) with (Z.of_nat p - 1) by lia.
Qed.

(** X10: with a positive [per_page] whose quotient does not underflow
    (any [per_page] below [2 ^ 1075] is such), the pages of a query, taken
    from the first to the last, make up the sorted filtered set: every
    record is on exactly one page, in order. *)
Theorem pages_partition (self : t) (fs : FS) (per_page : Z)
    (search : option string) (sort_by sort_order : string) :
  0 < per_page < Z.max 1 (len (filtered self fs search)) * 2 ^ 1075 →
  concat (map (λ p, page_of self fs (Z.of_nat p) per_page search sort_by sort_order)
              (seq 1 (Z.to_nat (page_count self fs per_page search sort_by
                                  sort_order))))
  = sort_files sort_by sort_order (filtered self fs search).
Proof.
  intros [Hpp Hsmall].
  rewrite <- (len_perm _ _ (sort_files_perm sort_by sort_order _)) in Hsmall.
  set (all_files := sort_files sort_by sort_order (filtered self fs search)) in *.
  set (tp := if len all_files >? 0
             then if underflows (len all_files) per_page then 0
                  else - (- len all_files / per_page)
             else 1).
  assert (1 ≤ tp ∧ len all_files ≤ tp * per_page) as [Htp Hcover].
  { subst tp. destruct (Z.gtb_spec (len all_files) 0) as [Hn|Hn].
    - rewrite underflows_below by (by rewrite Z.max_r in Hsmall by lia).
      split; [by apply ceiling_positive|]. apply (ceiling_bounds _ _ Hpp).
    - lia. }
  clear Hsmall.
  assert (page_count self fs per_page search sort_by sort_order = tp) as ->.
  { unfold page_count.
    destruct (query_page self fs 1 per_page search sort_by sort_order Hpp)
      as (r & Hr & Hrtp & _); [lia|fold all_files; fold tp; lia|].
    change (Z.of_nat 1) with 1 in Hr. by rewrite Hr. }
  transitivity (firstn (Z.to_nat tp * Z.to_nat per_page) all_files);
    [|apply firstn_all2; unfold len in Hcover; nia].
  rewrite <- chunks_concat. f_equal.
  apply map_ext_in. intros p Hp. apply in_seq in Hp.
  unfold page_of.
  destruct (query_page self fs p per_page search sort_by sort_order Hpp)
    as (r & Hr & _ & _ & _ & Hfiles); [lia|fold all_files; fold tp; lia|].
  by rewrite Hr.
Qed.

(** X11: over a non-empty filtered set and with a positive [per_page], the page
    a query returns is never empty and never longer than [per_page], and
    it is full whenever [has_next] says another page follows. *)
Theorem page_sizes (self : t) (fs : FS) (page per_page : Z)
    (search : option string) (sort_by sort_order : string) :
  filtered self fs search ≠ [] →
  0 < per_page →
  ∃ r, get_files_paginated self fs page per_page search sort_by sort_order
       = Return r
    ∧ 1 ≤ len (files r) ≤ per_page
    ∧ (pagination.has_next (pagination r) = true → len (files r) = per_page).
Proof.
  intros Hne Hpp.
  set (all_files := sort_files sort_by sort_order (filtered self fs search)).
  assert (0 < len all_files) as Hn
    by (apply len_pos; by apply sort_files_nonempty).
  destruct (underflows (len all_files) per_page) eqn:Hu.
  { apply underflows_above in Hu as [Hle _]; [|done].
    unfold get_files_paginated. fold (filtered self fs search). fold all_files.
    destruct (paginate_with all_files page per_page _
                (page_count_nonempty _ per_page
                   (sort_files_nonempty sort_by sort_order _ Hne) ltac:(lia)))
      as (r & Hr & Hfiles & Hpag & _).
    exists r. split; [done|]. rewrite Hpag, Hfiles. simpl.
    destruct (underflows _ _).
    - replace (Z.max 1 (Z.min page 0)) with 1 by lia.
      rewrite slice_whole by lia. split; [lia|]. intros Hnext.
      apply Z.ltb_lt in Hnext. lia.
    - rewrite ceiling_one_page by done.
      replace (Z.max 1 (Z.min page 1)) with 1 by lia.
      rewrite slice_whole by lia. split; [lia|]. intros Hnext.
      apply Z.ltb_lt in Hnext. lia. }
  pose proof (ceiling_positive _ _ Hn Hpp) as Htp.
  pose proof (ceiling_bounds (len all_files) _ Hpp) as Hceil.
  set (tp := - (- len all_files / per_page)) in *.
  set (cp := Z.max 1 (Z.min page tp)).
  assert (get_files_paginated self fs page per_page search sort_by sort_order
          = get_files_paginated self fs cp per_page search sort_by sort_order)
    as ->.
  { unfold get_files_paginated, paginate. fold (filtered self fs search).
    fold all_files. destruct (Z.gtb_spec (len all_files) 0); [|lia].
    unfold ceil_div. destruct (Z.eqb_spec per_page 0); [lia|]. rewrite Hu.
    simpl. fold tp. subst cp.
    by replace (Z.max 1 (Z.min (Z.max 1 (Z.min page tp)) tp))
      with (Z.max 1 (Z.min page tp)) by lia. }
  destruct (query_page self fs (Z.to_nat cp) per_page search sort_by sort_order
              Hpp) as (r & Hr & _ & _ & Hnext & Hfiles).
  { lia. }
  { fold all_files. destruct (Z.gtb_spec (len all_files) 0); [|lia].
    rewrite Hu. fold tp. lia. }
  fold all_files in Hfiles, Hnext.
  destruct (Z.gtb_spec (len all_files) 0); [|lia].
  rewrite Hu in Hnext. fold tp in Hnext.
  rewrite Z2Nat.id in Hr, Hnext by lia.
  exists r. split; [done|]. rewrite Hnext, Hfiles.
  unfold len in *. rewrite length_firstn, length_skipn.
  split; [nia|]. intros Hlt. apply Z.ltb_lt in Hlt. nia.
Qed.

(** X12: a negative [per_page] does not make the query fail: over a non-empty
    filtered set it answers with page 1, a page count that is not
    positive, no previous and no next page, and as files the sorted set
    without its last [- per_page] records. *)
Theorem negative_per_page (self : t) (fs : FS) (page per_page : Z)
    (search : option string) (sort_by sort_order : string) :
  filtered self fs search ≠ [] →
  per_page < 0 →
  ∃ r, get_files_paginated self fs page per_page search sort_by sort_order
       = Return r
    ∧ pagination.total_pages (pagination r) ≤ 0
    ∧ pagination.current_page (pagination r) = 1
    ∧ pagination.has_previous (pagination r) = false
    ∧ pagination.has_next (pagination r) = false
    ∧ files r
      = firstn (Z.to_nat (len (filtered self fs search) + per_page))
          (sort_files sort_by sort_order (filtered self fs search)).
Proof.
  intros Hne Hpp.
  pose proof (sort_files_perm sort_by sort_order (filtered self fs search))
    as Hperm. apply len_perm in Hperm. rewrite <- Hperm.
  apply (sort_files_nonempty sort_by sort_order) in Hne.
  unfold get_files_paginated. fold (filtered self fs search).
  set (all_files := sort_files sort_by sort_order (filtered self fs search)) in *.
  pose proof (len_pos _ Hne) as Hn.
  destruct (paginate_with all_files page per_page _
              (page_count_nonempty _ per_page Hne ltac:(lia)))
    as (r & Hr & Hfiles & Hpag & _).
  rewrite (underflows_negative _ _ Hpp) in Hfiles, Hpag.
  set (tp := - (- len all_files / per_page)) in *.
  assert (tp ≤ 0) as Htp.
  { subst tp. pose proof (Z.div_mod (- len all_files) per_page ltac:(lia)).
    pose proof (Z.mod_neg_bound (- len all_files) per_page Hpp). nia. }
  exists r. rewrite Hpag, Hfiles. simpl.
  replace (Z.max 1 (Z.min page tp)) with 1 by lia.
  split_and!; try done; try lia.
  replace ((1 - 1) * per_page) with 0 by lia. rewrite Z.add_0_l.
  unfold slice, slice_index. change (0 <? 0) with false. cbv iota.
  destruct (Z.ltb_spec per_page 0); [|lia].
  rewrite (Z.min_l 0) by lia. change (Z.to_nat 0) with 0%nat.
  rewrite skipn_O. f_equal. lia.
Qed.
End page_facts.

(** ** Subtitle association *)

Section subtitle_facts.
Context {FS : Type} `{OS FS}.
Import LibraryBrowser.

Lemma first_existing_first (fs : FS) (video_path : string) (exts : list string) :
  match first_existing fs (posixpath.dirname video_path)
          (fst (posixpath.splitext (posixpath.basename video_path))) exts with
  | Some p =>
      ∃ before ext after,
        exts = (before ++ ext :: after)%list
        ∧ p = subtitle_candidate video_path ext
        ∧ os_path.exists_ fs p = true
        ∧ Forall (λ e, os_path.exists_ fs (subtitle_candidate video_path e) = false)
            before
  | None =>
      Forall (λ e, os_path.exists_ fs (subtitle_candidate video_path e) = false)
        exts
  end.
Proof.
  induction exts as [|ext exts IH]; cbn [first_existing]; [constructor|].
  fold (subtitle_candidate video_path ext).
  destruct (os_path.exists_ fs (subtitle_candidate video_path ext)) eqn:Hex.
  - exists [], ext, exts. by split_and!.
  - destruct (first_existing _ _ _ exts) as [p|].
    + destruct IH as (before & e & after & -> & -> & Hp & Hbefore).
      exists (ext :: before), e, after. split_and!; try done.
      by constructor.
    + by constructor.
Qed.

Lemma find_related_subtitle_exists (self : t) (fs : FS) (video_path p : string) :
  find_related_subtitle self fs video_path = Some p →
  os_path.exists_ fs p = true.
Proof.
  intros Hp. pose proof (first_existing_first fs video_path (subtitle_iter self))
    as Hfirst.
  unfold find_related_subtitle in Hp. rewrite Hp in Hfirst.
  by destruct Hfirst as (_ & _ & _ & _ & _ & ? & _).
Qed.

(** X14: the subtitle found for a video is the candidate of the first
    extension, in the order the set is iterated, whose file exists: it
    lies beside the video, has the video's stem and a subtitle extension,
    and exists; nothing is found only when no candidate exists. *)
Theorem find_related_subtitle_first (self : t) (fs : FS) (video_path : string) :
  match find_related_subtitle self fs video_path with
  | Some p =>
      ∃ before ext after,
        subtitle_iter self = (before ++ ext :: after)%list
        ∧ p = subtitle_candidate video_path ext
        ∧ os_path.exists_ fs p = true
        ∧ Forall (λ e, os_path.exists_ fs (subtitle_candidate video_path e) = false)
            before
  | None =>
      Forall (λ e, os_path.exists_ fs (subtitle_candidate video_path e) = false)
        (subtitle_iter self)
  end.
Proof. apply first_existing_first. Qed.

(** X15: whether a subtitle is found does not depend on the order in which the
    set of subtitle extensions is iterated, and neither does the answer
    when only one candidate exists: for a browser as [__init__] builds
    it, nothing is found exactly when none of the five candidates exists,
    and a candidate that is the only one to exist is the one found. *)
Theorem find_related_subtitle_order_free (self : t) (fs : FS) (video_path : string) :
  well_formed self →
  (find_related_subtitle self fs video_path = None
   ↔ ∀ ext, ext ∈ subtitle_extensions →
       os_path.exists_ fs (subtitle_candidate video_path ext) = false)
  ∧ (∀ ext,
       ext ∈ subtitle_extensions →
       os_path.exists_ fs (subtitle_candidate video_path ext) = true →
       (∀ ext', ext' ∈ subtitle_extensions → ext' ≠ ext →
          os_path.exists_ fs (subtitle_candidate video_path ext') = false) →
       find_related_subtitle self fs video_path
       = Some (subtitle_candidate video_path ext)).
Proof.
  intros Hwf.
  assert (∀ ext, ext ∈ subtitle_iter self ↔ ext ∈ subtitle_extensions) as Hin.
  { intros ext. unfold well_formed in Hwf. rewrite Hwf. apply elem_of_elements. }
  pose proof (first_existing_first fs video_path (subtitle_iter self)) as Hfirst.
  unfold find_related_subtitle. split.
  - destruct (first_existing _ _ _ _) as [p|].
    + destruct Hfirst as (before & e & after & Hiter & -> & Hp & _).
      split; [done|]. intros Hnone. rewrite Hnone in Hp; [done|].
      apply Hin. rewrite Hiter. apply elem_of_app. right. by left.
    + split; [|done]. intros _ ext Hext.
      rewrite Forall_forall in Hfirst. by apply Hfirst, Hin.
  - intros ext Hext Hex Honly.
    destruct (first_existing _ _ _ _) as [p|].
    + destruct Hfirst as (before & e & after & Hiter & -> & Hp & _).
      destruct (decide (e = ext)) as [->|Hne]; [done|].
      rewrite Honly in Hp; [done| |done].
      apply Hin. rewrite Hiter. apply elem_of_app. right. by left.
    + rewrite Forall_forall in Hfirst.
      rewrite Hfirst in Hex; [done|]. by apply Hin.
Qed.
End subtitle_facts.

(** ** File info *)

Section info_facts.
Context {FS : Type} `{OS FS}.
Import LibraryBrowser.

(** What [get_file_info] returns for a path that exists. *)
Lemma get_file_info_run (self : t) (fs : FS) (file_path : string) :
  os_path.exists_ fs file_path = true →
  ∃ rel st,
    os_path.relpath fs file_path (library_path self) = Return rel
    ∧ os_stat fs file_path = Return st
    ∧ get_file_info self fs file_path
      = Return (Some
          {| info :=
               {| filename := posixpath.basename file_path;
                  full_path := file_path;
                  relative_path := rel;
                  directory := posixpath.dirname rel;
                  extension :=
                    Str.lower (snd (posixpath.splitext (posixpath.basename file_path)));
                  size := st_size st;
                  modified := st_mtime st;
                  is_video :=
                    bool_decide
                      (Str.lower (snd (posixpath.splitext
                                         (posixpath.basename file_path)))
                       ∈ video_extensions);
                  is_subtitle :=
                    bool_decide
                      (Str.lower (snd (posixpath.splitext
                                         (posixpath.basename file_path)))
                       ∈ subtitle_extensions) |};
             video_info :=
               if bool_decide
                    (Str.lower (snd (posixpath.splitext
                                       (posixpath.basename file_path)))
                     ∈ video_extensions)
               then Some
                 {| has_subtitle :=
                      bool_decide (find_related_subtitle self fs file_path ≠ None);
                    subtitle_path := find_related_subtitle self fs file_path |}
               else None |}).
Proof.
  intros Hex. unfold get_file_info. rewrite Hex. cbn [negb].
  destruct (relpath_returns fs file_path (library_path self)
              (exists_nonempty _ _ Hex)) as [rel Hrel].
  rewrite Hrel. unfold os_path.getsize, os_path.getmtime.
  unfold os_path.exists_ in Hex.
  destruct (os_stat fs file_path) as [st|] eqn:Hstat; [|done].
  exists rel, st. by split_and!.
Qed.

(** X16: [get_file_info] answers [None] exactly for a path that does not
    exist; for one that exists it describes the file at that path, with
    the name the path ends in, and it says of a video (and of nothing
    else) whether a subtitle goes with it: [has_subtitle] is true exactly
    when [subtitle_path] names a file, which then exists. *)
Theorem get_file_info_describes (self : t) (fs : FS) (file_path : string) :
  (get_file_info self fs file_path = Return None
   ↔ os_path.exists_ fs file_path = false)
  ∧ (os_path.exists_ fs file_path = true →
     ∃ i, get_file_info self fs file_path = Return (Some i)
       ∧ full_path (info i) = file_path
       ∧ filename (info i) = posixpath.basename file_path
       ∧ describes self fs (info i)
       ∧ (is_video (info i) = true
          ↔ Str.lower (snd (posixpath.splitext (filename (info i))))
            ∈ video_extensions)
       ∧ ¬ (is_video (info i) = true ∧ is_subtitle (info i) = true)
       ∧ (video_info i = None ↔ is_video (info i) = false)
       ∧ (∀ v, video_info i = Some v →
            (has_subtitle v = true ↔ subtitle_path v ≠ None)
            ∧ ∀ p, subtitle_path v = Some p → os_path.exists_ fs p = true)).
Proof.
  split.
  - destruct (os_path.exists_ fs file_path) eqn:Hex.
    + destruct (get_file_info_run self fs file_path Hex) as (? & ? & _ & _ & ->).
      done.
    + unfold get_file_info. by rewrite Hex.
  - intros Hex.
    destruct (get_file_info_run self fs file_path Hex)
      as (rel & [sz mt] & Hrel & Hstat & ->).
    eexists. split; [reflexivity|]. cbn [info video_info full_path filename
      is_video is_subtitle].
    split_and!; try done.
    + unfold describes. cbn. split_and!; try done.
      by apply exists_nonempty in Hex.
    + apply bool_decide_eq_true.
    + rewrite !bool_decide_eq_true. intros [Hv Hs].
      by apply (video_subtitle_disjoint _ Hv Hs).
    + by destruct (bool_decide _).
    + intros v Hv. destruct (bool_decide _); [|done].
      injection Hv as <-. cbn. split.
      * apply bool_decide_eq_true.
      * intros p Hp. by apply (find_related_subtitle_exists self fs file_path).
Qed.
End info_facts.

Section info_of_record.
Context {FS : Type} `{OS FS}.
Import LibraryBrowser.

Lemma scan_record_path (self : t) (fs : FS) (f : FileRecord) :
  f ∈ _get_all_files self fs →
  describes self fs f ∧ classified f
  ∧ ∃ root, full_path f = posixpath.join root (filename f).
Proof.
  intros Hf.
  destruct (os_path.exists_ fs (library_path self)) eqn:Hex.
  - destruct (scan_run self fs Hex)
      as (Hall & stopped & before & after & _ & _ & Hmap & _).
    rewrite Forall_forall in Hall. destruct (Hall f Hf) as [Hd Hc].
    split; [done|]. split; [done|].
    assert (record_entry f ∈ map candidate_entry before) as Hin.
    { rewrite <- Hmap. by apply list_elem_of_fmap_2. }
    apply list_elem_of_fmap in Hin as ([root name] & Heq & _).
    unfold record_entry, candidate_entry, candidate_path in Heq.
    simpl in Heq. injection Heq as -> ->. by exists root.
  - unfold _get_all_files in Hf. rewrite Hex in Hf. simpl in Hf.
    by apply elem_of_nil in Hf.
Qed.

(** X17: the catalog and the file-info lookup agree: asked about the
    [full_path] of a record of the catalog (whose name is a single
    component, as the names [os.walk] yields are), [get_file_info]
    returns that very record. *)
Theorem get_file_info_of_record (self : t) (fs : FS) (f : FileRecord) :
  f ∈ _get_all_files self fs →
  has_char "/" (filename f) = false →
  ∃ i, get_file_info self fs (full_path f) = Return (Some i) ∧ info i = f.
Proof.
  intros Hf Hname.
  destruct (scan_record_path self fs f Hf)
    as ((Hne & Hrel & Hdir & Hstat) & (Hext & _ & Hvid & Hsub & _) & root & Hpath).
  assert (os_path.exists_ fs (full_path f) = true) as Hex.
  { unfold os_path.exists_. by rewrite Hstat. }
  destruct (get_file_info_run self fs (full_path f) Hex)
    as (rel & st & Hrel' & Hstat' & ->).
  eexists. split; [reflexivity|]. cbn [info].
  assert (posixpath.basename (full_path f) = filename f) as ->.
  { rewrite Hpath. by apply basename_join. }
  rewrite Hrel in Hrel'. injection Hrel' as <-.
  rewrite Hstat in Hstat'. injection Hstat' as <-.
  rewrite <- Hext, <- Hdir. cbn [st_size st_mtime].
  assert (bool_decide (extension f ∈ video_extensions) = is_video f) as ->.
  { destruct (is_video f) eqn:Hv.
    - apply bool_decide_eq_true. by apply Hvid.
    - apply bool_decide_eq_false. intros Hin. apply Hvid in Hin. congruence. }
  assert (bool_decide (extension f ∈ subtitle_extensions) = is_subtitle f) as ->.
  { destruct (is_subtitle f) eqn:Hs.
    - apply bool_decide_eq_true. by apply Hsub.
    - apply bool_decide_eq_false. intros Hin. apply Hsub in Hin. congruence. }
  by destruct f.
Qed.
End info_of_record.

(** ** More on the paired rename *)

Section rename_more.
Context {FS : Type} `{OS FS}.
Import LibraryBrowser.

(** X18: when [os.rename] refuses the main rename, the call reports the
    failure with the text of the error, lists no renamed file, leaves the
    file system as it was, and has asked for that one rename only. *)
Theorem rename_primary_failure (self : t) (fs : FS) (old_path new_name : string)
    (rename_subtitle : bool) (e : exn) :
  os_path.exists_ fs old_path = true →
  (os_path.exists_ fs (new_path_of old_path new_name) = false
   ∨ new_path_of old_path new_name = old_path) →
  os_rename fs old_path (new_path_of old_path new_name) = Raise e →
  rename_file self fs old_path new_name rename_subtitle
  = (Return {| success := false;
               message := "Error: " ++ str_exn e;
               renamed_files := [] |},
     fs, [(old_path, new_path_of old_path new_name)]).
Proof.
  intros Hold Hfree Hfail. rewrite rename_file_paths. cbv zeta.
  rewrite Hold, Hfail.
  assert (os_path.exists_ fs (new_path_of old_path new_name)
          && negb (String.eqb (new_path_of old_path new_name) old_path) = false)
    as ->; [|done].
  destruct Hfree as [->| ->]; [done|].
  rewrite String.eqb_refl. apply andb_false_r.
Qed.

(** X19: a file that is not a video, and any file when [rename_subtitle] is
    false, is renamed alone: the only request ever made is the main
    rename, and at most one file is listed. *)
Theorem rename_alone (self : t) (fs : FS) (old_path new_name : string)
    (rename_subtitle : bool) :
  rename_subtitle = false
  ∨ Str.lower (snd (posixpath.splitext (posixpath.basename old_path)))
    ∉ video_extensions →
  ∃ out fs' calls,
    rename_file self fs old_path new_name rename_subtitle = (Return out, fs', calls)
    ∧ (calls = [] ∨ calls = [(old_path, new_path_of old_path new_name)])
    ∧ (renamed_files out = []
       ∨ renamed_files out = [main_entry old_path new_name]).
Proof.
  intros Halone. rewrite rename_file_paths. cbv zeta.
  assert (rename_subtitle
          && bool_decide
               (Str.lower (snd (posixpath.splitext (posixpath.basename old_path)))
                ∈ video_extensions) = false) as ->.
  { destruct Halone as [->|Hnv]; [done|].
    rewrite (bool_decide_eq_false_2 _ Hnv). apply andb_false_r. }
  destruct (negb _); [by eauto 10|].
  destruct (_ && _); [by eauto 10|].
  destruct (os_rename _ _ _); eauto 10.
Qed.

(** X20: what every call of [rename_file] keeps to: it returns an outcome;
    [success] is true exactly when a renamed file is listed; a failed
    call leaves the file system as it was; the listed files are, in
    order, a main entry and then possibly a subtitle entry; each listed
    file is one of the at most two renames that were requested. *)
Theorem rename_outcome_invariant (self : t) (fs : FS) (old_path new_name : string)
    (rename_subtitle : bool) :
  ∃ out fs' calls,
    rename_file self fs old_path new_name rename_subtitle = (Return out, fs', calls)
    ∧ (success out = true ↔ renamed_files out ≠ [])
    ∧ (success out = false → fs' = fs)
    ∧ map type (renamed_files out) `prefix_of` ["main"; "subtitle"]
    ∧ map request_of (renamed_files out) `prefix_of` calls
    ∧ (length calls ≤ 2)%nat.
Proof.
  rewrite rename_file_paths. cbv zeta.
  destruct (negb _).
  { do 3 eexists. split; [reflexivity|]. simpl.
    split_and!; try done; try apply prefix_nil. lia. }
  destruct (_ && negb _).
  { do 3 eexists. split; [reflexivity|]. simpl.
    split_and!; try done; try apply prefix_nil. lia. }
  destruct (os_rename fs old_path _) as [fs1|e].
  2:{ do 3 eexists. split; [reflexivity|]. simpl.
      split_and!; try done; try apply prefix_nil. lia. }
  assert (∀ fs', ∃ out calls,
            (Return (renamed [main_entry old_path new_name]), fs',
             [(old_path, new_path_of old_path new_name)])
            = (Return out, fs', calls)
            ∧ (success out = true ↔ renamed_files out ≠ [])
            ∧ (success out = false → fs' = fs)
            ∧ map type (renamed_files out) `prefix_of` ["main"; "subtitle"]
            ∧ map request_of (renamed_files out) `prefix_of` calls
            ∧ (length calls ≤ 2)%nat) as Hone.
  { intros fs'. do 2 eexists. split; [reflexivity|]. simpl.
    split_and!; try done; try lia. by exists ["subtitle"]. }
  destruct (_ && bool_decide _).
  2:{ destruct (Hone fs1) as (out & calls & ? & ?). by exists out, fs1, calls. }
  destruct (find_related_subtitle self fs1 old_path) as [sp|].
  2:{ destruct (Hone fs1) as (out & calls & ? & ?). by exists out, fs1, calls. }
  destruct (os_rename fs1 sp _) as [fs2|e].
  - do 3 eexists. split; [reflexivity|]. simpl.
    split_and!; try done; try lia.
  - do 3 eexists. split; [reflexivity|]. simpl.
    split_and!; try done; try lia.
    + by exists ["subtitle"].
    + by eexists [_].
Qed.
End rename_more.

(** ** What a page holds *)

Lemma slice_sublist {A} (l : list A) (start stop : Z) :
  slice l start stop `sublist_of` l.
Proof.
  unfold slice. etrans; [apply sublist_take|apply sublist_drop].
Qed.

Lemma sorted_sublist {A} (R : A → A → Prop) (l1 l2 : list A) :
  l1 `sublist_of` l2 → StronglySorted R l2 → StronglySorted R l1.
Proof.
  induction 1 as [|x l1 l2 Hsub IH|x l1 l2 Hsub IH]; intros Hs.
  - constructor.
  - apply StronglySorted_inv in Hs as [Hs Hx].
    constructor; [by apply IH|].
    rewrite Forall_forall in Hx. apply Forall_forall. intros y Hy.
    apply Hx. by eapply elem_of_sublist.
  - apply StronglySorted_inv in Hs as [Hs _]. by apply IH.
Qed.

Section page_contents_facts.
Context {FS : Type} `{OS FS}.
Import LibraryBrowser.

Lemma query_files_slice (self : t) (fs : FS) (page per_page : Z)
    (search : option string) (sort_by sort_order : string) (r : PageResult) :
  get_files_paginated self fs page per_page search sort_by sort_order = Return r →
  files r `sublist_of` sort_files sort_by sort_order (filtered self fs search).
Proof.
  unfold get_files_paginated, paginate. fold (filtered self fs search).
  destruct (if _ >? 0 then _ else _) as [tp|e]; [|done].
  intros [= <-]. apply slice_sublist.
Qed.

(** X13: whatever page and [per_page] are asked for, a query that returns
    hands out records of the catalog only, all of them matching the
    search term when there is one, and in the order asked for. *)
Theorem page_contents (self : t) (fs : FS) (page per_page : Z)
    (search : option string) (sort_by sort_order : string) (r : PageResult) :
  get_files_paginated self fs page per_page search sort_by sort_order = Return r →
  (∀ f, f ∈ files r → f ∈ _get_all_files self fs)
  ∧ (∀ term f, search = Some term → term ≠ "" → f ∈ files r → mentions term f)
  ∧ StronglySorted
      (if String.eqb sort_order "desc" then flip (file_le sort_by)
       else file_le sort_by)
      (files r).
Proof.
  intros Hr. apply query_files_slice in Hr.
  pose proof (sort_files_perm sort_by sort_order (filtered self fs search))
    as Hperm.
  assert (∀ f, f ∈ files r → f ∈ filtered self fs search) as Hin.
  { intros f Hf. rewrite <- Hperm. by eapply elem_of_sublist. }
  split_and!.
  - intros f Hf. apply Hin in Hf. unfold filtered, filter_search in Hf.
    destruct search as [s|]; [|done].
    destruct (String.eqb s ""); [done|].
    apply list_elem_of_In, filter_In in Hf as [Hf _]. by apply list_elem_of_In.
  - intros term f -> Hne Hf. apply Hin in Hf.
    unfold filtered, filter_search in Hf.
    apply String.eqb_neq in Hne. rewrite Hne in Hf.
    apply list_elem_of_In, filter_In in Hf as [_ Hf]. by apply matches_spec.
  - eapply sorted_sublist; [exact Hr|]. apply sort_files_sorted.
Qed.
End page_contents_facts.

(** ** The further properties on the demo libraries *)

(** ** The page count and the division of doubles *)

Section rounding.
Import binary64.

Lemma round_half_even_bounds (n d : Z) :
  0 < d →
  2 * n - d ≤ 2 * round_half_even n d * d ≤ 2 * n + d.
Proof.
  intros Hd. unfold round_half_even.
  pose proof (Z.div_mod n d ltac:(lia)) as Hdm.
  pose proof (Z.mod_pos_bound n d Hd) as Hr.
  set (q := n / d) in *. set (r := n mod d) in *.
  destruct (Z.ltb_spec (2 * r) d); [nia|].
  destruct (Z.ltb_spec d (2 * r)); [nia|].
  destruct (Z.even q); nia.
Qed.

Lemma round_half_even_zero (n d : Z) :
  0 ≤ n → 0 < d → round_half_even n d = 0 ↔ 2 * n ≤ d.
Proof.
  intros Hn Hd. unfold round_half_even.
  pose proof (Z.div_mod n d ltac:(lia)) as Hdm.
  pose proof (Z.mod_pos_bound n d Hd) as Hr.
  pose proof (Z.div_pos n d Hn Hd) as Hq.
  set (q := n / d) in *. set (r := n mod d) in *.
  destruct (Z.ltb_spec (2 * r) d).
  { split; [intros ->; lia|nia]. }
  destruct (Z.ltb_spec d (2 * r)).
  { split; [lia|nia]. }
  destruct (Z.even q) eqn:Heven.
  - split; [intros ->; lia|]. intros Hle. nia.
  - split; [lia|]. intros Hle.
    assert (q = 0) as Hq0 by nia. by rewrite Hq0 in Heven.
Qed.

Lemma ceiling_unique (m p c : Z) :
  0 < p → (c - 1) * p < m ≤ c * p → - (- m / p) = c.
Proof.
  intros Hp Hm.
  pose proof (Z.div_mod (- m) p ltac:(lia)).
  pose proof (Z.mod_pos_bound (- m) p Hp). nia.
Qed.

Lemma floor_unique (m p f : Z) :
  0 < p → f * p ≤ m < (f + 1) * p → m / p = f.
Proof.
  intros Hp Hm.
  pose proof (Z.div_mod m p ltac:(lia)).
  pose proof (Z.mod_pos_bound m p Hp). nia.
Qed.

(** Scaling by [p] with [b < 2 p]: rounding keeps the scaled quotient
    strictly between the multiples of [p] around it. *)
Lemma round_above (a b p c : Z) :
  0 < b < 2 * p → (c - 1) * b < a ≤ c * b →
  (c - 1) * p < round_half_even (a * p) b ≤ c * p.
Proof.
  intros Hb Ha.
  pose proof (round_half_even_bounds (a * p) b ltac:(lia)) as Hm.
  set (m := round_half_even (a * p) b) in *. nia.
Qed.

Lemma round_below (a b p f : Z) :
  0 < b < 2 * p → f * b ≤ a < (f + 1) * b →
  f * p ≤ round_half_even (a * p) b < (f + 1) * p.
Proof.
  intros Hb Ha.
  pose proof (round_half_even_bounds (a * p) b ltac:(lia)) as Hm.
  set (m := round_half_even (a * p) b) in *. nia.
Qed.

Lemma pow2_add (x y : Z) : 0 ≤ x → 0 ≤ y → 2 ^ (x + y) = 2 ^ x * 2 ^ y.
Proof. intros. by apply Z.pow_add_r. Qed.

Lemma pow2_pos (x : Z) : 0 ≤ x → 0 < 2 ^ x.
Proof. intros. by apply Z.pow_pos_nonneg. Qed.

(** [ilog2 a b] is the integer [l] with [2^l <= a / b < 2^(l+1)]. *)
Lemma ilog2_spec (a b : Z) :
  0 < a → 0 < b →
  reaches (ilog2 a b) a b = true ∧ reaches (ilog2 a b + 1) a b = false.
Proof.
  intros Ha Hb. unfold ilog2.
  pose proof (Z.log2_spec a Ha) as Hla.
  pose proof (Z.log2_spec b Hb) as Hlb.
  pose proof (Z.log2_nonneg a) as Hla0.
  pose proof (Z.log2_nonneg b) as Hlb0.
  set (la := Z.log2 a) in *. set (lb := Z.log2 b) in *.
  replace (Z.succ la) with (la + 1) in Hla by lia.
  replace (Z.succ lb) with (lb + 1) in Hlb by lia.
  destruct (reaches (la - lb) a b) eqn:Hd.
  - split; [done|]. unfold reaches.
    destruct (Z.leb_spec 0 (la - lb + 1)) as [Hs|Hs].
    + apply Z.leb_gt.
      assert (2 ^ (la + 1) = 2 ^ lb * 2 ^ (la - lb + 1)) as Hpow
        by (rewrite <- pow2_add by lia; f_equal; lia).
      pose proof (pow2_pos (la - lb + 1) Hs).
      nia.
    + apply Z.leb_gt.
      assert (2 ^ lb = 2 ^ (la + 1) * 2 ^ (- (la - lb + 1))) as Hpow
        by (rewrite <- pow2_add by lia; f_equal; lia).
      pose proof (pow2_pos (- (la - lb + 1)) ltac:(lia)).
      nia.
  - replace (la - lb - 1 + 1) with (la - lb) by lia. split; [|done].
    unfold reaches.
    destruct (Z.leb_spec 0 (la - lb - 1)) as [Hs|Hs].
    + apply Z.leb_le.
      assert (2 ^ la = 2 ^ (lb + 1) * 2 ^ (la - lb - 1)) as Hpow
        by (rewrite <- pow2_add by lia; f_equal; lia).
      pose proof (pow2_pos (la - lb - 1) Hs).
      nia.
    + apply Z.leb_le.
      assert (2 ^ (lb + 1) = 2 ^ la * 2 ^ (- (la - lb - 1))) as Hpow
        by (rewrite <- pow2_add by lia; f_equal; lia).
      pose proof (pow2_pos (- (la - lb - 1)) ltac:(lia)).
      nia.
Qed.

Lemma scaled_nonpos (a b e : Z) :
  e ≤ 0 → scaled a b e = round_half_even (a * 2 ^ (- e)) b.
Proof.
  intros He. unfold scaled. destruct (Z.leb_spec 0 e); [|done].
  assert (e = 0) as -> by lia. simpl. by rewrite !Z.mul_1_r.
Qed.

Lemma ceil_nonpos (m e : Z) :
  e ≤ 0 → ceil {| mantissa := m; exponent := e |} = - (- m / 2 ^ (- e)).
Proof.
  intros He. unfold ceil. simpl. destruct (Z.leb_spec 0 e); [|done].
  assert (e = 0) as -> by lia. simpl. rewrite Z.div_1_r. lia.
Qed.

(** The exponent and the mantissa of the quotient of two positive
    integers, the dividend below [2^53]: either the quotient is in the
    normal range and the divisor is below twice the scale, or it is
    subnormal and the divisor is far above the dividend. *)
Lemma quotient_scale (a b : Z) :
  0 < a < 2 ^ 53 → 0 < b →
  let e := Z.max (ilog2 a b - 52) (-1074) in
  e ≤ 0
  ∧ 0 < 2 ^ (- e)
  ∧ (b < 2 * 2 ^ (- e) ∧ 2 ^ (- e) ≤ 2 ^ 1074
     ∨ e = -1074 ∧ a * 2 ^ 1022 < b).
Proof.
  intros [Ha Ha53] Hb.
  destruct (ilog2_spec a b Ha Hb) as [Hlo Hhi].
  set (l := ilog2 a b) in *.
  assert (l ≤ 52) as Hl.
  { destruct (Z.le_gt_cases l 52) as [|Hbig]; [done|].
    unfold reaches in Hlo. destruct (Z.leb_spec 0 l); [|lia].
    apply Z.leb_le in Hlo.
    pose proof (Z.pow_le_mono_r 2 53 l ltac:(lia) ltac:(lia)).
    nia. }
  intros e. split; [lia|]. split; [apply pow2_pos; lia|].
  destruct (Z.le_gt_cases (-1074) (l - 52)) as [Hnormal|Hsub].
  - left. replace e with (l - 52) by lia.
    replace (- (l - 52)) with (52 - l) by lia.
    split; [|apply Z.pow_le_mono_r; lia].
    assert (2 ^ (53 - l) = 2 * 2 ^ (52 - l)) as Hp.
    { replace (53 - l) with (1 + (52 - l)) by lia.
      by rewrite pow2_add by lia. }
    unfold reaches in Hlo. destruct (Z.leb_spec 0 l).
    + apply Z.leb_le in Hlo.
      assert (2 ^ 53 = 2 ^ l * 2 ^ (53 - l)) as Hq.
      { rewrite <- pow2_add by lia. f_equal; lia. }
      pose proof (pow2_pos l ltac:(lia)).
      rewrite <- Hp. nia.
    + apply Z.leb_le in Hlo.
      assert (2 ^ (53 - l) = 2 ^ 53 * 2 ^ (- l)) as Hq.
      { rewrite <- pow2_add by lia. f_equal; lia. }
      pose proof (pow2_pos (- l) ltac:(lia)).
      rewrite <- Hp, Hq. nia.
  - right. split; [lia|].
    unfold reaches in Hhi. destruct (Z.leb_spec 0 (l + 1)); [lia|].
    apply Z.leb_gt in Hhi.
    pose proof (Z.pow_le_mono_r 2 1022 (- (l + 1)) ltac:(lia) ltac:(lia)).
    nia.
Qed.

(** X22: for a dividend below [2^53], [ceil_div] is [math.ceil(a / b)] as
    the division of doubles computes it: [ZeroDivisionError] for a zero
    divisor, [0] when the quotient underflows, and the exact ceiling in
    every other case, for a positive and for a negative divisor. *)
Theorem ceil_div_binary64 (a b : Z) :
  0 ≤ a < 2 ^ 53 → ceil_div a b = ceil_of_quotient a b.
Proof.
  intros [Ha Ha53]. unfold ceil_div, ceil_of_quotient, true_divide.
  destruct (Z.eqb_spec b 0) as [|Hb0]; [done|].
  destruct (Z.eqb_spec a 0) as [->|Ha0].
  { unfold underflows, ceil. cbn [mantissa exponent].
    change (0 <=? 0) with true. cbv iota.
    rewrite !Z.mul_0_l. change (- 0) with 0. rewrite Zdiv_0_l.
    by destruct (_ && _). }
  rewrite (Z.abs_eq a) by lia. rewrite (Z.sgn_pos a) by lia.
  destruct (quotient_scale a (Z.abs b) ltac:(lia) ltac:(lia))
    as (He & Hp & Hcases).
  set (e := Z.max (ilog2 a (Z.abs b) - 52) (-1074)) in *.
  rewrite scaled_nonpos by done.
  pose proof (round_half_even_bounds (a * 2 ^ (- e)) (Z.abs b) ltac:(lia))
    as Hm.
  set (p := 2 ^ (- e)) in *.
  set (m := round_half_even (a * p) (Z.abs b)) in *.
  assert ((0 <=? e) && (2 ^ 1024 <=? m * 2 ^ e) = false) as ->.
  { destruct (Z.leb_spec 0 e); [|done]. simpl. apply Z.leb_gt.
    assert (e = 0) as He0 by lia.
    assert (p = 1) as Hp1 by (subst p; by rewrite He0).
    rewrite He0, Z.pow_0_r, Z.mul_1_r. rewrite Hp1 in Hm.
    assert (0 < Z.abs b) as Hb by lia.
    assert (m ≤ a + 1) by nia.
    assert (2 ^ 53 < 2 ^ 1024) by (apply Z.pow_lt_mono_r; lia). lia. }
  rewrite ceil_nonpos by done. fold p.
  destruct (Z.lt_total b 0) as [Hneg|[|Hpos]]; [|done|].
  - rewrite (Z.sgn_neg b), (Z.abs_neq b) in * by lia.
    rewrite underflows_negative by done.
    replace (- (1 * -1 * m)) with m by lia.
    replace (- a / b) with (a / - b)
      by (rewrite <- (Z.div_opp_opp (- a) b), Z.opp_involutive by lia; done).
    do 2 f_equal. symmetry.
    pose proof (Z.div_mod a (- b) ltac:(lia)) as Hdm.
    pose proof (Z.mod_pos_bound a (- b) ltac:(lia)) as Hr.
    set (f := a / - b) in *.
    apply floor_unique; [done|].
    destruct Hcases as [[Hb _]|[_ Hfar]].
    + apply round_below; [lia|nia].
    + assert (1 ≤ 2 ^ 1022) by (apply (Z.pow_le_mono_r 2 0 1022); lia).
      assert (f = 0) as Hf by nia. rewrite Hf.
      assert (0 ≤ m) by nia. nia.
  - rewrite (Z.sgn_pos b), (Z.abs_eq b) in * by lia.
    replace (1 * 1 * m) with m by lia.
    pose proof (Z.div_mod (- a) b ltac:(lia)) as Hdm.
    pose proof (Z.mod_pos_bound (- a) b ltac:(lia)) as Hr.
    destruct Hcases as [[Hb Hp74]|[He74 Hfar]].
    + rewrite underflows_below.
      2:{ assert (2 ^ 1075 = 2 * 2 ^ 1074) as ->
            by (change 1075 with (Z.succ 1074); apply Z.pow_succ_r; lia).
          nia. }
      f_equal. symmetry. apply ceiling_unique; [done|].
      apply round_above; [lia|]. nia.
    + assert (1 ≤ 2 ^ 1022) by (apply (Z.pow_le_mono_r 2 0 1022); lia).
      assert (a < b) by nia.
      assert (0 ≤ m ≤ p) by nia.
      pose proof (round_half_even_zero (a * p) b ltac:(nia) ltac:(lia)) as Hz.
      replace (round_half_even (a * p) b) with m in Hz
        by (subst m; by rewrite Z.abs_eq by lia).
      assert (2 ^ 1075 = 2 * p) as Hp75.
      { subst p. rewrite He74. change (- -1074) with 1074.
        change 1075 with (Z.succ 1074). apply Z.pow_succ_r. lia. }
      unfold underflows. destruct (Z.ltb_spec 0 b); [|lia].
      rewrite Hp75. cbn [andb].
      destruct (Z.leb_spec (a * (2 * p)) b) as [Hu|Hu].
      * assert (m = 0) as Hm0 by (apply Hz; lia).
        rewrite Hm0. change (- 0) with 0. by rewrite Zdiv_0_l.
      * assert (m ≠ 0) by (intros Hm0; apply Hz in Hm0; lia).
        rewrite (ceiling_unique m p 1) by lia.
        by rewrite (ceiling_unique a b 1) by lia.
Qed.
End rounding.

Module more_facts.
Import LibraryBrowser demo.

Lemma splitext_extension_witness :
  snd (posixpath.splitext "/lib/movie.en.srt") = ".srt"
  ∧ plain_stem (fst (posixpath.splitext "/lib/movie.en.srt")).
Proof.
  split; [run|].
  apply (splitext_extension "/lib/movie.en.srt"). vm_compute. discriminate.
Defined.

Lemma splitext_append_extension_witness :
  posixpath.splitext ("/lib/Movie (2010)" ++ ".mkv") = ("/lib/Movie (2010)", ".mkv").
Proof.
  apply (splitext_append_extension "/lib/Movie (2010)" ".mkv").
  - right. exists "mkv". by split_and!.
  - discriminate.
  - run.
Defined.

Lemma rename_keeps_extension_witness :
  posixpath.splitext
    (posixpath.basename (new_path_of "/lib/movie.mkv" "Movie (2010).avi"))
  = ("Movie (2010)", ".mkv").
Proof.
  etrans; [apply (rename_keeps_extension "/lib/movie.mkv" "Movie (2010).avi")|run].
  - vm_compute. discriminate.
  - run.
  - run.
Defined.

Example scan_stops_at_dangling_link :
  map filename (_get_all_files browser demo_dangling.library) = ["c.mp4"].
Proof. run. Qed.

Lemma scan_up_to_first_unreadable_witness :
  ∃ before after,
    candidates browser demo_dangling.library = (before ++ after)%list
    ∧ Forall (readable demo_dangling.library) before
    ∧ map record_entry (_get_all_files browser demo_dangling.library)
      = map candidate_entry before
    ∧ (after = []
       ∨ ∃ c after', after = c :: after' ∧ ¬ readable demo_dangling.library c).
Proof. apply (scan_up_to_first_unreadable browser demo_dangling.library). run. Defined.

Lemma scan_complete_witness :
  map record_entry (_get_all_files browser library)
  = [("c.mp4", "/lib/c.mp4"); ("a.mp4", "/lib/a.mp4"); ("b.mp4", "/lib/b.mp4");
     ("movie.mkv", "/lib/movie.mkv"); ("movie.srt", "/lib/movie.srt");
     ("taken.srt", "/lib/taken.srt"); ("clip.AVI", "/lib/extras/clip.AVI");
     ("clip.vtt", "/lib/extras/clip.vtt")].
Proof.
  etrans; [apply (scan_complete browser library)|run].
  - run.
  - assert (Forall (readable library) (candidates browser library)) as Hall.
    { replace (candidates browser library)
        with [("/lib", "c.mp4"); ("/lib", "a.mp4"); ("/lib", "b.mp4");
              ("/lib", "movie.mkv"); ("/lib", "movie.srt");
              ("/lib", "taken.srt"); ("/lib/extras", "clip.AVI");
              ("/lib/extras", "clip.vtt")] by run.
      repeat constructor; eexists; run. }
    intros c Hc. rewrite Forall_forall in Hall. by apply Hall.
Defined.

Lemma search_selects_witness :
  map filename (filtered browser library (Some "CLIP")) = ["clip.AVI"; "clip.vtt"]
  ∧ (∀ f, f ∈ filtered browser library (Some "CLIP") → mentions "CLIP" f)
  ∧ map filename (filtered browser demo_accents.library (Some demo_accents.ETE))
    = [demo_accents.ete_mp4]
  ∧ (∀ f, f ∈ filtered browser demo_accents.library (Some demo_accents.ETE)
          → mentions demo_accents.ETE f).
Proof.
  split_and!; [run| |run|].
  - intros f Hf.
    destruct (search_selects browser library (Some "CLIP")) as (_ & _ & Hiff).
    apply (Hiff "CLIP" f eq_refl) in Hf as [_ ?]; [done|discriminate].
  - intros f Hf.
    destruct (search_selects browser demo_accents.library
                (Some demo_accents.ETE)) as (_ & _ & Hiff).
    apply (Hiff _ f eq_refl) in Hf as [_ ?]; [done|discriminate].
Defined.

Lemma search_ignores_case_witness :
  filter_search (Some "Mp4") (_get_all_files browser library)
  = filter_search (Some "mP4") (_get_all_files browser library)
  ∧ filter_search (Some demo_accents.ETE)
      (_get_all_files browser demo_accents.library)
    = filter_search (Some demo_accents.ete)
        (_get_all_files browser demo_accents.library).
Proof.
  split.
  - apply (search_ignores_case "Mp4" "mP4"). run.
  - apply (search_ignores_case demo_accents.ETE demo_accents.ete). run.
Defined.

Lemma pages_partition_witness :
  page_count browser library 3 None "size" "asc" = 3
  ∧ (page_of browser library 1 3 None "size" "asc"
     ++ page_of browser library 2 3 None "size" "asc"
     ++ page_of browser library 3 3 None "size" "asc")%list
    = sort_files "size" "asc" (filtered browser library None).
Proof.
  split; [run|].
  etrans; [|apply (pages_partition browser library 3 None "size" "asc"); lia].
  run.
Defined.

Lemma page_sizes_witness :
  ∃ r, get_files_paginated browser library 2 3 None "size" "asc" = Return r
    ∧ 1 ≤ len (files r) ≤ 3
    ∧ (pagination.has_next (pagination r) = true → len (files r) = 3).
Proof.
  apply (page_sizes browser library 2 3 None "size" "asc"); [|lia].
  vm_compute. discriminate.
Defined.

Lemma negative_per_page_witness :
  ∃ r, get_files_paginated browser library 5 (-3) None "size" "asc" = Return r
    ∧ pagination.current_page (pagination r) = 1
    ∧ map filename (files r)
      = ["clip.vtt"; "movie.srt"; "taken.srt"; "clip.AVI"; "a.mp4"].
Proof.
  destruct (negative_per_page browser library 5 (-3) None "size" "asc")
    as (r & Hr & _ & Hcp & _ & _ & Hfiles).
  { vm_compute. discriminate. }
  { lia. }
  exists r. split_and!; [done..|]. rewrite Hfiles. run.
Defined.

Lemma page_contents_witness :
  ∃ r, get_files_paginated browser library 1 2 (Some "mp4") "filename" "desc"
       = Return r
    ∧ map filename (files r) = ["c.mp4"; "b.mp4"]
    ∧ ∀ f, f ∈ files r → f ∈ _get_all_files browser library.
Proof.
  destruct (get_files_paginated browser library 1 2 (Some "mp4") "filename" "desc")
    as [r|e] eqn:Hr; [|by vm_compute in Hr].
  exists r. split; [done|]. split.
  - vm_compute in Hr. injection Hr as <-. reflexivity.
  - by apply (page_contents browser library 1 2 (Some "mp4") "filename" "desc" r).
Defined.

Lemma find_related_subtitle_order_free_witness :
  find_related_subtitle browser library "/lib/extras/clip.AVI"
  = Some "/lib/extras/clip.vtt".
Proof.
  destruct (find_related_subtitle_order_free browser library
              "/lib/extras/clip.AVI") as [_ Honly].
  { unfold well_formed. decided. }
  etrans; [apply (Honly ".vtt")|run].
  - decided.
  - run.
  - intros ext' Hext' Hne.
    unfold subtitle_extensions in Hext'.
    rewrite elem_of_list_to_set, !elem_of_cons, elem_of_nil in Hext'.
    destruct Hext' as [->|[->|[->|[->|[->|[]]]]]]; try run. done.
Defined.

Lemma get_file_info_describes_witness :
  ∃ i, get_file_info browser library "/lib/movie.mkv" = Return (Some i)
    ∧ filename (info i) = "movie.mkv"
    ∧ size (info i) = 1000.
Proof.
  destruct (get_file_info_describes browser library "/lib/movie.mkv")
    as [_ Hinfo].
  destruct Hinfo as (i & Hi & Hpath & Hname & (_ & _ & _ & Hstat) & _); [run|].
  exists i. split_and!; [done|by rewrite Hname|].
  rewrite Hpath in Hstat.
  assert (os_stat library "/lib/movie.mkv"
          = Return {| st_size := 1000; st_mtime := 40 |}) as Hreal by run.
  rewrite Hreal in Hstat. by injection Hstat as <- _.
Defined.

Lemma get_file_info_of_record_witness :
  ∃ i, get_file_info browser library "/lib/a.mp4" = Return (Some i)
    ∧ info i = {| filename := "a.mp4";
                  full_path := "/lib/a.mp4";
                  relative_path := "a.mp4";
                  directory := "";
                  extension := ".mp4";
                  size := 100;
                  modified := 10;
                  is_video := true;
                  is_subtitle := false |}.
Proof.
  apply (get_file_info_of_record browser library
           {| filename := "a.mp4";
              full_path := "/lib/a.mp4";
              relative_path := "a.mp4";
              directory := "";
              extension := ".mp4";
              size := 100;
              modified := 10;
              is_video := true;
              is_subtitle := false |}).
  - apply list_elem_of_lookup. exists 1%nat. run.
  - run.
Defined.

Lemma rename_primary_failure_witness :
  rename_file browser library "/lib/movie.mkv" "missing/movie" true
  = (Return {| success := false;
               message := "Error: [Errno 2] No such file or directory: '/lib/movie.mkv' -> '/lib/missing/movie.mkv'";
               renamed_files := [] |},
     library, [("/lib/movie.mkv", "/lib/missing/movie.mkv")]).
Proof.
  etrans;
    [apply (rename_primary_failure browser library "/lib/movie.mkv"
              "missing/movie" true
              (OSError "[Errno 2] No such file or directory: '/lib/movie.mkv' -> '/lib/missing/movie.mkv'"))
    |run].
  - run.
  - left. run.
  - run.
Defined.

Lemma rename_alone_witness :
  ∃ out fs' calls,
    rename_file browser library "/lib/movie.srt" "film" true = (Return out, fs', calls)
    ∧ (calls = [] ∨ calls = [("/lib/movie.srt", new_path_of "/lib/movie.srt" "film")])
    ∧ (renamed_files out = []
       ∨ renamed_files out = [main_entry "/lib/movie.srt" "film"]).
Proof.
  apply (rename_alone browser library "/lib/movie.srt" "film" true).
  right. apply (bool_decide_unpack _). by vm_compute.
Defined.

Lemma ceil_div_binary64_witness :
  binary64.ceil_of_quotient 8 3 = Return 3
  ∧ binary64.ceil_of_quotient 8 (10 ^ 400) = Return 0.
Proof.
  split.
  - etrans; [symmetry; apply (ceil_div_binary64 8 3); lia|run].
  - etrans; [symmetry; apply (ceil_div_binary64 8 (10 ^ 400)); lia|run].
Defined.
End more_facts.

Module accents_facts.
Import LibraryBrowser demo_accents.

(** Lowering reaches the accented capitals: [ÉTÉ] is lowered to [été];
    the sign [×] and the letters [ß] and [ÿ], which have no other case
    below 256, stay. *)
Lemma lower_accented :
  Str.lower ETE = ete
  ∧ Str.lower (String "215" (String "223" (String "255" "")))
    = String "215" (String "223" (String "255" "")).
Proof. split; run. Qed.

(** The search for [ÉTÉ] finds [été.mp4]. *)
Lemma search_accented :
  map filename (filtered demo.browser library (Some ETE)) = [ete_mp4].
Proof. run. Qed.

(** By name, [à.mp4] comes before [É.mp4]. *)
Lemma sort_accented :
  map filename
    (sort_files "filename" "asc" (filtered demo.browser library None))
  = [a_mp4; E_mp4; ete_mp4].
Proof. run. Qed.
End accents_facts.

Module more_facts_rename.
Import LibraryBrowser demo.

Lemma rename_outcome_invariant_witness :
  ∃ out fs' calls,
    rename_file browser library "/lib/movie.mkv" "Dir" true = (Return out, fs', calls)
    ∧ (success out = true ↔ renamed_files out ≠ [])
    ∧ map request_of (renamed_files out) `prefix_of` calls
    ∧ calls = [("/lib/movie.mkv", "/lib/Dir.mkv"); ("/lib/movie.srt", "/lib/Dir.srt")].
Proof.
  destruct (rename_outcome_invariant browser library "/lib/movie.mkv" "Dir" true)
    as (out & fs' & calls & Hr & Hsuccess & _ & _ & Hprefix & _).
  exists out, fs', calls. split_and!; [done..|].
  assert (snd (rename_file browser library "/lib/movie.mkv" "Dir" true)
          = [("/lib/movie.mkv", "/lib/Dir.mkv"); ("/lib/movie.srt", "/lib/Dir.srt")])
    as Hcalls by run.
  by rewrite Hr in Hcalls.
Defined.
End more_facts_rename.
